(** * A shallow embedding of the monomarket backend (Rust, tokio, alloy)

    Sources modelled:
    - [src/src/backend.rs]: the command executor [backend_tx_executor],
      [handle_fund_event], [handle_tick_event], [handle_restart_game];
    - [src/src/chain_events.rs] (and the identical loop at the end of
      [main] in [src/src/main.rs]): deduplication and projection of logs;
    - [src/src/ws.rs] and [src/src/ws_axum.rs]: the per-session handlers.

    Modelling choices.
    - Addresses, hashes, amounts and u64 values are [Z].  A [u64] addition
      is overflow-checked: an overflow panics (debug semantics) and ends
      the task.  [U256::to::<u64>()] panics when the value does not fit.
    - The ledger (alloy [Provider]) is an oracle: the world carries the
      list of answers it gives, consumed one per call, in call order.  An
      RPC error is an [Err] answer, which [?] propagates.  When the answers
      run out, the task waits forever ([Hang]).
    - The trace records every ledger call with its answer, every broadcast,
      every message on a session-private channel and every command
      enqueued to the executor, in chronological order.  Logging
      ([tracing::...]) and sleeping are not modelled, except that a poll
      that finds no receipt records a [EvSleep], and that the string slice
      in the log line of [RawTx] can panic. *)

From Stdlib Require Import ZArith Lia Bool Ascii.
From stdpp Require Import base gmap list strings pretty.

Open Scope Z_scope.

(** ** Data model *)

Definition Address := Z.
Definition TxHash := Z.

(** [AppState] of the crate root (the spec's GameState). *)
Record AppState := mkAppState {
  names : gmap Z string;
  seen_logs : gset (Z * Z);
  current_price : Z;
  balances : gmap Z Z;
  holdings : gmap Z Z;
  backend_nonce : Z;
  current_block_height : Z;
  game_start_block : option Z;
  game_end_block : option Z
}.

Definition set_backend_nonce (n : Z) (s : AppState) : AppState :=
  mkAppState (names s) (seen_logs s) (current_price s) (balances s) (holdings s)
    n (current_block_height s) (game_start_block s) (game_end_block s).

Definition set_seen_logs (x : gset (Z * Z)) (s : AppState) : AppState :=
  mkAppState (names s) x (current_price s) (balances s) (holdings s)
    (backend_nonce s) (current_block_height s) (game_start_block s) (game_end_block s).

Definition set_current_price (p : Z) (s : AppState) : AppState :=
  mkAppState (names s) (seen_logs s) p (balances s) (holdings s)
    (backend_nonce s) (current_block_height s) (game_start_block s) (game_end_block s).

Definition set_position (a b h : Z) (s : AppState) : AppState :=
  mkAppState (names s) (seen_logs s) (current_price s)
    (<[a := b]> (balances s)) (<[a := h]> (holdings s))
    (backend_nonce s) (current_block_height s) (game_start_block s) (game_end_block s).

Definition set_name (a : Z) (n : string) (s : AppState) : AppState :=
  mkAppState (<[a := n]> (names s)) (seen_logs s) (current_price s) (balances s)
    (holdings s) (backend_nonce s) (current_block_height s) (game_start_block s)
    (game_end_block s).

(** [GasCosts] / [GasInfo]. *)
Record GasCosts := mkGasCosts { gas_register : Z; gas_buy : Z; gas_sell : Z }.

(** [ServerMessage] of [src/src/ws.rs] (the type the backend and the
    sessions use).  Formatted addresses ([format!("{:?}", addr)]) are kept
    as the address itself. *)
Inductive ServerMessage :=
| ConnectionInfo (contract_address : Address) (gas_costs : GasCosts)
| PriceUpdate (new_price block_number : Z)
| CurrentPrice (price : Z)
| NameSet (address : Address) (name : string)
| Position (address : Address) (balance holdings block_number : Z)
| TxError (error : string)
| NonceResponse (address : Address) (nonce : Z)
| Funded (address : Address) (amount : Z)
| FundError (address : Address) (error : string)
| TxSubmitted (tx_hash : TxHash)
| GameStarted (start_height end_height : Z)
| GameEnded
| CurrentBlockHeight (height : Z).

(** [ServerMessage] of the crate root of [src/src/main.rs], the type that
    [process_chain_events] of [src/src/chain_events.rs] broadcasts. *)
Inductive ChainMessage :=
| CPriceUpdate (old_price new_price block_number : Z)
| CBought (user : Address) (name : option string)
    (amount price block_number balance holdings : Z)
| CSold (user : Address) (name : option string)
    (amount price block_number balance holdings : Z)
| CPosition (address : Address) (name : option string)
    (balance holdings current_price : Z).

(** [ClientMessage] (the variants [handle_axum_connection] matches). *)
Inductive ClientMessage :=
| SetName (name address : string)
| RawTx (raw_tx : string)
| GetNonce (address : string)
| RestartGame.

(** A session-private reply channel ([mpsc::Sender<ServerMessage>]),
    identified by the session that created it. *)
Definition Chan := nat.

(** [BackendTxEvent]: the commands of the executor queue. *)
Inductive BackendTxEvent :=
| Fund (addr : Address) (client_tx : Chan)
| GameOver
| Tick.

(** Transactions built by the backend. *)
Inductive TxCall :=
| CallTransfer (to value : Z)
| CallTick
| CallReset
| CallStart (duration : Z).

Record Tx := mkTx {
  tx_call : TxCall;
  tx_nonce : Z;
  tx_gas_limit : Z;
  tx_fee : Z;                    (* gas_price, or max_fee_per_gas *)
  tx_priority_fee : option Z     (* max_priority_fee_per_gas, if set *)
}.

(** Read-only contract calls. *)
Inductive ViewFn := GetHoldings | GetBalance.

Inductive Result (A : Type) :=
| ROk (a : A)
| RErr (e : string).
Arguments ROk {A} a.
Arguments RErr {A} e.

(** Answers of the ledger, one per call. *)
Inductive Resp :=
| RBalance (r : Result Z)
| RTxCount (r : Result Z)
| RSend (r : Result TxHash)
| RReceipt (r : Result (option bool))   (* [Some status] once mined *)
| RView (r : Result Z).

Inductive Event :=
| EvGetBalance (addr : Address) (r : Result Z)
| EvGetTxCount (addr : Address) (r : Result Z)
| EvSendTx (tx : Tx) (r : Result TxHash)
| EvGetReceipt (h : TxHash) (r : Result (option bool))
| EvView (f : ViewFn) (addr : Address) (r : Result Z)
| EvSendRaw (bytes : string) (r : Result TxHash)
| EvSleep
| EvBroadcast (m : ServerMessage)
| EvClientSend (c : Chan) (m : ServerMessage)
| EvEnqueue (ev : BackendTxEvent)
| EvSpawnRestart
| EvChainBroadcast (m : ChainMessage).

Record World := mkWorld {
  st : AppState;
  script : list Resp;
  trace : list Event;
  signer : Address        (* [provider.default_signer_address()] *)
}.

Definition with_state (s : AppState) (w : World) : World :=
  mkWorld s (script w) (trace w) (signer w).

Definition with_script (r : list Resp) (w : World) : World :=
  mkWorld (st w) r (trace w) (signer w).

Definition record (e : Event) (w : World) : World :=
  mkWorld (st w) (script w) (trace w ++ [e]) (signer w).

(** ** The task monad *)

Inductive Res (A : Type) :=
| Done (a : A) (w : World)
| Fail (e : string) (w : World)   (* an [anyhow] error returned by [?] *)
| Panic (w : World)               (* overflow or failed u64 conversion *)
| Hang (w : World).               (* waiting for an answer that never comes *)
Arguments Done {A} a w.
Arguments Fail {A} e w.
Arguments Panic {A} w.
Arguments Hang {A} w.

Definition M (A : Type) := World -> Res A.

Definition ret {A} (a : A) : M A := fun w => Done a w.

Definition bind {A B} (m : M A) (f : A -> M B) : M B :=
  fun w => match m w with
           | Done a w' => f a w'
           | Fail e w' => Fail e w'
           | Panic w' => Panic w'
           | Hang w' => Hang w'
           end.

Notation "x <- m ;; k" := (bind m (fun x => k))
  (at level 100, m at next level, right associativity).
Notation "m ;;; k" := (bind m (fun _ => k))
  (at level 100, right associativity).

Definition res_world {A} (r : Res A) : World :=
  match r with Done _ w | Fail _ w | Panic w | Hang w => w end.

Definition raise {A} (e : string) : M A := fun w => Fail e w.
Definition panic {A} : M A := fun w => Panic w.

(** Catching an error returned by [?]: [match f().await { Ok .. | Err .. }]. *)
Definition attempt {A} (m : M A) : M (Result A) :=
  fun w => match m w with
           | Done a w' => Done (ROk a) w'
           | Fail e w' => Done (RErr e) w'
           | Panic w' => Panic w'
           | Hang w' => Hang w'
           end.

Definition get_state : M AppState := fun w => Done (st w) w.
Definition put_state (s : AppState) : M unit := fun w => Done tt (with_state s w).
Definition emit (e : Event) : M unit := fun w => Done tt (record e w).

Definition of_result {A} (r : Result A) : M A :=
  match r with ROk a => ret a | RErr e => raise e end.

Definition U64_LIMIT : Z := 2 ^ 64.

(** [a + b] on [u64] (overflow-checked). *)
Definition add_u64 (a b : Z) : M Z :=
  if a + b <? U64_LIMIT then ret (a + b) else panic.

(** [x.to::<u64>()] on a [U256]. *)
Definition to_u64 (x : Z) : M Z :=
  if x <? U64_LIMIT then ret x else panic.

(** ** The ledger gateway *)

Definition next_resp : M (option Resp) :=
  fun w => match script w with
           | [] => Done None w
           | r :: rest => Done (Some r) (with_script rest w)
           end.

Definition hang {A} : M A := fun w => Hang w.

(** [provider.get_balance(addr).await] *)
Definition get_balance (a : Address) : M (Result Z) :=
  r <- next_resp ;;
  match r with
  | Some (RBalance x) => emit (EvGetBalance a x) ;;; ret x
  | _ => hang
  end.

(** [provider.get_transaction_count(addr).await] *)
Definition get_transaction_count (a : Address) : M (Result Z) :=
  r <- next_resp ;;
  match r with
  | Some (RTxCount x) => emit (EvGetTxCount a x) ;;; ret x
  | _ => hang
  end.

(** [provider.send_transaction(tx).await] and [*pending.tx_hash()] *)
Definition send_transaction (tx : Tx) : M (Result TxHash) :=
  r <- next_resp ;;
  match r with
  | Some (RSend x) => emit (EvSendTx tx x) ;;; ret x
  | _ => hang
  end.

(** [provider.get_transaction_receipt(h).await] *)
Definition get_transaction_receipt (h : TxHash) : M (Result (option bool)) :=
  r <- next_resp ;;
  match r with
  | Some (RReceipt x) => emit (EvGetReceipt h x) ;;; ret x
  | _ => hang
  end.

(** [contract.getHoldings(addr).call().await] and [getBalance] *)
Definition view_call (f : ViewFn) (a : Address) : M (Result Z) :=
  r <- next_resp ;;
  match r with
  | Some (RView x) => emit (EvView f a x) ;;; ret x
  | _ => hang
  end.

(** [provider.send_raw_transaction(&bytes).await] *)
Definition send_raw_transaction (b : string) : M (Result TxHash) :=
  r <- next_resp ;;
  match r with
  | Some (RSend x) => emit (EvSendRaw b x) ;;; ret x
  | _ => hang
  end.

(** [provider.default_signer_address()] *)
Definition default_signer_address : M Address := fun w => Done (signer w) w.

(** [let _ = broadcast_tx.send(msg);] *)
Definition broadcast (m : ServerMessage) : M unit := emit (EvBroadcast m).

(** [let _ = client_tx.send(msg).await;] *)
Definition client_send (c : Chan) (m : ServerMessage) : M unit :=
  emit (EvClientSend c m).

(** The polling loop
    [loop { match provider.get_transaction_receipt(h).await? {
              Some(receipt) => break receipt, None => sleep(200ms) } }].
    Every round consumes one answer, so [fuel] = answers left + 1 never
    cuts a run short: with no answer left the next poll hangs anyway. *)
Fixpoint poll_receipt_fuel (fuel : nat) (h : TxHash) : M bool :=
  match fuel with
  | O => hang
  | S f =>
      r <- get_transaction_receipt h ;;
      x <- of_result r ;;
      match x with
      | Some status => ret status
      | None => emit EvSleep ;;; poll_receipt_fuel f h
      end
  end.

Definition poll_receipt (h : TxHash) : M bool :=
  fun w => poll_receipt_fuel (S (length (script w))) h w.

(** The nonce reservation block
    [{ let mut g = state.write().await; let nonce = g.backend_nonce;
       g.backend_nonce += 1; nonce }]. *)
Definition reserve_nonce : M Z :=
  s <- get_state ;;
  let nonce := backend_nonce s in
  n' <- add_u64 nonce 1 ;;
  put_state (set_backend_nonce n' s) ;;;
  ret nonce.

(** [str::contains]: does [pat] occur in [s]? *)
Fixpoint str_contains (s pat : string) : bool :=
  match s with
  | EmptyString => String.prefix pat EmptyString
  | String c s' => String.prefix pat s || str_contains s' pat
  end.

(** A hexadecimal digit [0..15] in lower case. *)
Definition hex_char (d : Z) : ascii :=
  ascii_of_nat (Z.to_nat (if d <? 10 then 48 + d else 87 + d)).

(** The [k] lowest hexadecimal digits of [v], most significant first,
    in front of [acc]. *)
Fixpoint hex_digits (k : nat) (v : Z) (acc : string) : string :=
  match k with
  | O => acc
  | S k' => hex_digits k' (v / 16) (String (hex_char (v mod 16)) acc)
  end.

(** [format!("{:?}", tx_hash)] of a [B256]: [0x] and 64 lower-case
    hexadecimal digits, zero-padded. *)
Definition fmt_hash (h : TxHash) : string := ("0x" ++ hex_digits 64 h EmptyString)%string.

(** ** [src/src/backend.rs] *)

Definition FUNDING_AMOUNT : Z := 500000000000000000.   (* 0.5 MON *)
Definition MIN_BALANCE : Z := 450000000000000000.      (* 0.45 MON *)
Definition GAS_PRICE : Z := 145330835516.               (* 0x21d664903c *)
Definition PRIORITY_FEE : Z := 1000000000.

(** The [if balance > U256::ZERO] branch of [handle_fund_event]: the
    account counts as funded, nothing is sent to the ledger. *)
Definition report_funded (addr : Address) (client_tx : Chan) (balance : Z) : M unit :=
  rh <- view_call GetHoldings addr ;;
  holdings0 <- of_result rh ;;
  rcb <- view_call GetBalance addr ;;
  contract_balance <- of_result rcb ;;
  amount <- to_u64 balance ;;
  client_send client_tx (Funded addr amount) ;;;
  balance' <- to_u64 contract_balance ;;
  holdings' <- to_u64 holdings0 ;;
  (if (0 <? balance') && (0 <? holdings') then
     broadcast (Position addr balance' holdings' 0)
   else ret tt) ;;;
  ret tt.

(** [handle_fund_event] *)
Definition handle_fund_event (addr : Address) (client_tx : Chan) : M unit :=
  rb <- get_balance addr ;;
  balance <- of_result rb ;;
  if 0 <? balance then
    report_funded addr client_tx balance
  else
    let funding_amount := FUNDING_AMOUNT in
    nonce <- reserve_nonce ;;
    let tx := mkTx (CallTransfer addr funding_amount) nonce 25000 GAS_PRICE None in
    rs <- send_transaction tx ;;
    tx_hash <- of_result rs ;;
    status <- poll_receipt tx_hash ;;
    if status then
      amount <- to_u64 funding_amount ;;
      client_send client_tx (Funded addr amount)
    else
      let error_msg := ("Funding transaction failed: " ++ fmt_hash tx_hash)%string in
      client_send client_tx (FundError addr error_msg) ;;;
      ret tt.

(** [handle_tick_event] *)
Definition handle_tick_event : M unit :=
  nonce <- reserve_nonce ;;
  let tx := mkTx CallTick nonce 60000 GAS_PRICE (Some PRIORITY_FEE) in
  rs <- send_transaction tx ;;
  _tx_hash <- of_result rs ;;
  ret tt.

(** The three buckets of a failed tick, in the order the code tests them. *)
Inductive TickFailure := AlreadyTicked | HigherPriority | OtherFailure.

Definition classify_tick_error (error_msg : string) : TickFailure :=
  if str_contains error_msg "Already ticked this block" then AlreadyTicked
  else if str_contains error_msg "higher priority" then HigherPriority
  else OtherFailure.

(** The [if let Err(e) = handle_tick_event(..)] block of the executor, for
    [error_msg = format!("Failed to process tick: {}", e)]. *)
Definition tick_recover (error_msg : string) : M unit :=
  if str_contains error_msg "Already ticked this block" then
    ret tt
  else if str_contains error_msg "higher priority" then
    s <- get_state ;;
    let old_nonce := backend_nonce s in
    n' <- add_u64 old_nonce 20 ;;
    put_state (set_backend_nonce n' s)
  else
    backend_address <- default_signer_address ;;
    r <- get_transaction_count backend_address ;;
    match r with
    | ROk chain_nonce =>
        s <- get_state ;;
        let old_nonce := backend_nonce s in
        if old_nonce <? chain_nonce then put_state (set_backend_nonce chain_nonce s)
        else if chain_nonce =? old_nonce then ret tt
        else ret tt
    | RErr _ => ret tt
    end.

(** One iteration of [while let Some(event) = rx.recv().await] in
    [backend_tx_executor]. *)
Definition handle_backend_event (ev : BackendTxEvent) : M unit :=
  match ev with
  | Fund addr client_tx =>
      r <- attempt (handle_fund_event addr client_tx) ;;
      match r with
      | ROk _ => ret tt
      | RErr e =>
          let error_msg := ("Failed to fund account: " ++ e)%string in
          client_send client_tx (FundError addr error_msg)
      end
  | GameOver => broadcast GameEnded
  | Tick =>
      r <- attempt handle_tick_event ;;
      match r with
      | ROk _ => ret tt
      | RErr e => tick_recover ("Failed to process tick: " ++ e)%string
      end
  end.

(** [backend_tx_executor] over the commands received from its queue. *)
Fixpoint backend_tx_executor (evs : list BackendTxEvent) : M unit :=
  match evs with
  | [] => ret tt
  | ev :: evs' => handle_backend_event ev ;;; backend_tx_executor evs'
  end.

(** *** [handle_restart_game] *)

(** One round of Step 1's [for addr in addresses] loop. *)
Definition fund_player (addr : Address) : M unit :=
  rb <- get_balance addr ;;
  balance <- of_result rb ;;
  if balance <? MIN_BALANCE then
    nonce <- reserve_nonce ;;
    let tx := mkTx (CallTransfer addr (FUNDING_AMOUNT - balance)) nonce 25000
                GAS_PRICE None in
    rs <- send_transaction tx ;;
    tx_hash <- of_result rs ;;
    status <- poll_receipt tx_hash ;;
    if status then
      amount <- to_u64 FUNDING_AMOUNT ;;
      broadcast (Funded addr amount)
    else ret tt
  else ret tt.

Fixpoint fund_players (addresses : list Address) : M unit :=
  match addresses with
  | [] => ret tt
  | addr :: rest => fund_player addr ;;; fund_players rest
  end.

(** [state_guard.names.keys().copied().collect()]; the gmap order stands
    for the unspecified iteration order of the [HashMap]. *)
Definition name_keys (s : AppState) : list Address := (map_to_list (names s)).*1.

(** Steps 1 and 2: fund the players, then send [reset()]. *)
Definition restart_prefix : M TxHash :=
  s <- get_state ;;
  fund_players (name_keys s) ;;;
  nonce <- reserve_nonce ;;
  let tx := mkTx CallReset nonce 500000 GAS_PRICE (Some PRIORITY_FEE) in
  rs <- send_transaction tx ;;
  of_result rs.

Definition GAME_DURATION : Z := 50.

(** Step 4 onwards: send [start(50)] and wait for it. *)
Definition restart_start : M unit :=
  nonce <- reserve_nonce ;;
  let tx := mkTx (CallStart GAME_DURATION) nonce 500000 GAS_PRICE (Some PRIORITY_FEE) in
  rs <- send_transaction tx ;;
  start_tx_hash <- of_result rs ;;
  status <- poll_receipt start_tx_hash ;;
  if status then ret tt else raise "Start transaction failed".

Definition handle_restart_game : M unit :=
  reset_tx_hash <- restart_prefix ;;
  status <- poll_receipt reset_tx_hash ;;
  if status then restart_start else raise "Reset transaction failed".

(** ** [src/src/chain_events.rs]: deduplication and projection *)

(** A raw [alloy::rpc::types::Log]: the optional transaction hash and log
    index, the topics and the data words. *)
Record Log := mkLog {
  transaction_hash : option TxHash;
  log_index : option Z;
  topics : list Z;
  data : list Z
}.

Definition topic0 (l : Log) : option Z := head (topics l).

(** [SIGNATURE_HASH] of the contract's events (distinct constants). *)
Definition PriceUpdate_SIG : Z := 1.
Definition Bought_SIG : Z := 2.
Definition Sold_SIG : Z := 3.
Definition NewUser_SIG : Z := 4.

Definition is_word (x : Z) : bool := (0 <=? x) && (x <? 2 ^ 256).
Definition is_address (x : Z) : bool := (0 <=? x) && (x <? 2 ^ 160).

(** [decode_log(&inner_log, true)] for the contract's events.  The ABI
    JSON is not part of the sources; the layout assumed here is
    [PriceUpdate(oldPrice, newPrice, blockNumber)] with no indexed field,
    and [Bought]/[Sold](indexed user, amount, price, blockNumber,
    newBalance, newHoldings), [NewUser(indexed user)].  Validation rejects
    a wrong number of topics or words and out-of-range words. *)
Definition decode_price_update (l : Log) : option (Z * Z * Z) :=
  match topics l, data l with
  | [_], [o; n; b] =>
      if is_word o && is_word n && is_word b then Some (o, n, b) else None
  | _, _ => None
  end.

Record TradeEv := mkTradeEv {
  ev_user : Address; ev_amount : Z; ev_price : Z; ev_block : Z;
  ev_new_balance : Z; ev_new_holdings : Z }.

Definition decode_trade (l : Log) : option TradeEv :=
  match topics l, data l with
  | [_; u], [a; p; b; nb; nh] =>
      if is_address u && forallb is_word [a; p; b; nb; nh]
      then Some (mkTradeEv u a p b nb nh) else None
  | _, _ => None
  end.

Definition decode_new_user (l : Log) : option Address :=
  match topics l, data l with
  | [_; u], [] => if is_address u then Some u else None
  | _, _ => None
  end.

(** [(log.transaction_hash.unwrap_or_default(), log.log_index.unwrap_or(0))] *)
Definition log_key (l : Log) : Z * Z :=
  (default 0 (transaction_hash l), default 0 (log_index l)).

Definition chain_broadcast (m : ChainMessage) : M unit := emit (EvChainBroadcast m).

(** The [Bought] and [Sold] branches (identical but for the message). *)
Definition project_trade (is_buy : bool) (d : TradeEv) : M unit :=
  let user_addr := ev_user d in
  balance <- to_u64 (ev_new_balance d) ;;
  holdings0 <- to_u64 (ev_new_holdings d) ;;
  s <- get_state ;;
  put_state (set_position user_addr balance holdings0 s) ;;;
  let name := names s !! user_addr in
  let current_price0 := current_price s in
  amount <- to_u64 (ev_amount d) ;;
  price <- to_u64 (ev_price d) ;;
  block_number <- to_u64 (ev_block d) ;;
  chain_broadcast
    ((if is_buy then CBought else CSold)
       user_addr name amount price block_number balance holdings0) ;;;
  chain_broadcast (CPosition user_addr name balance holdings0 current_price0).

(** Decoding and projection of a log that passed deduplication. *)
Definition project_log (l : Log) : M unit :=
  match topic0 l with
  | None => ret tt
  | Some t =>
      if t =? PriceUpdate_SIG then
        match decode_price_update l with
        | Some (old_price, new_price0, block_number) =>
            new_price <- to_u64 new_price0 ;;
            s' <- get_state ;;
            put_state (set_current_price new_price s') ;;;
            old <- to_u64 old_price ;;
            bn <- to_u64 block_number ;;
            chain_broadcast (CPriceUpdate old new_price bn)
        | None => ret tt
        end
      else if t =? Bought_SIG then
        match decode_trade l with
        | Some d => project_trade true d
        | None => ret tt
        end
      else if t =? Sold_SIG then
        match decode_trade l with
        | Some d => project_trade false d
        | None => ret tt
        end
      else if t =? NewUser_SIG then
        match decode_new_user l with
        | Some _ => ret tt        (* only logged *)
        | None => ret tt
        end
      else ret tt
  end.

(** The body of [while let Some(log) = stream.next().await]. *)
Definition process_log (l : Log) : M unit :=
  s <- get_state ;;
  let k := log_key l in
  if decide (k ∈ seen_logs s) then ret tt
  else
    put_state (set_seen_logs ({[k]} ∪ seen_logs s) s) ;;;
    project_log l.

(** [process_chain_events] over a finite stream. *)
Fixpoint process_chain_events (logs : list Log) : M unit :=
  match logs with
  | [] => ret tt
  | l :: rest => process_log l ;;; process_chain_events rest
  end.

(** ** [src/src/ws.rs] and [src/src/ws_axum.rs]: sessions *)

(** The messages sent under the read guard on connect, in both handlers,
    except for the game window part. *)
Definition name_messages (s : AppState) : list ServerMessage :=
  map (fun '(address, name) => NameSet address name) (map_to_list (names s)).

Definition position_messages (s : AppState) : list ServerMessage :=
  map (fun '(address, balance) =>
         Position address balance (default 0 (holdings s !! address)) 0)
      (map_to_list (balances s)).

(** Game window part of [handle_connection] ([ws.rs]). *)
Definition window_status_ws (s : AppState) : list ServerMessage :=
  match game_start_block s, game_end_block s with
  | Some start_block, Some end_block =>
      if end_block <? current_block_height s then [GameEnded]
      else [GameStarted start_block end_block]
  | _, _ => []
  end.

(** Game window part of [handle_axum_connection] ([ws_axum.rs]). *)
Definition window_status_axum (s : AppState) : list ServerMessage :=
  match game_start_block s, game_end_block s with
  | Some start_block, Some end_block =>
      if current_block_height s <=? end_block then [GameStarted start_block end_block]
      else []
  | _, _ => []
  end.

(** The initial view, given the game window part of the handler. *)
Definition initial_view (window : AppState -> list ServerMessage)
    (gas : GasCosts) (contract : Address) (s : AppState) : list ServerMessage :=
  [ConnectionInfo contract gas] ++
  [CurrentPrice (current_price s)] ++
  [CurrentBlockHeight (current_block_height s)] ++
  window s ++ name_messages s ++ position_messages s.

(** [ws_sender.send(..).await?] over a list, on a socket that accepts
    [cap] more messages and then errors: the messages written and whether
    every send succeeded. *)
Fixpoint socket_send_all (cap : nat) (ms : list ServerMessage)
    : list ServerMessage * bool :=
  match ms with
  | [] => ([], true)
  | m :: ms' =>
      match cap with
      | O => ([], false)
      | S c => let '(out, ok) := socket_send_all c ms' in (m :: out, ok)
      end
  end.

(** What a session's socket carries: the initial view, each send with [?]
    (a failure returns from the handler, so nothing is relayed), then the
    [send_task] relaying [relayed], the messages taken from
    [broadcast_rx] and [client_rx] by its [select!] loop, until a send
    fails ([break]). *)
Definition session_transcript (window : AppState -> list ServerMessage)
    (cap : nat) (gas : GasCosts) (contract : Address) (s : AppState)
    (relayed : list ServerMessage) : list ServerMessage :=
  let '(out, ok) := socket_send_all cap (initial_view window gas contract s) in
  if ok then out ++ (socket_send_all (cap - length out) relayed).1 else out.

Definition handle_connection_transcript := session_transcript window_status_ws.
Definition handle_axum_connection_transcript := session_transcript window_status_axum.

(** [address.parse::<Address>()]: an optional [0x] prefix, then exactly
    40 hexadecimal digits. *)
Definition hex_digit (c : ascii) : option Z :=
  let n := Z.of_nat (nat_of_ascii c) in
  if (48 <=? n) && (n <=? 57) then Some (n - 48)
  else if (97 <=? n) && (n <=? 102) then Some (n - 87)
  else if (65 <=? n) && (n <=? 70) then Some (n - 55)
  else None.

Fixpoint hex_value (s : string) (acc : Z) : option Z :=
  match s with
  | EmptyString => Some acc
  | String c s' =>
      match hex_digit c with
      | Some d => hex_value s' (acc * 16 + d)
      | None => None
      end
  end.

(** [const_hex]'s [strip_prefix]: drops a leading [0x] or [0X]. *)
Definition strip_0x (s : string) : string :=
  if String.prefix "0x" s || String.prefix "0X" s
  then String.substring 2 (String.length s - 2) s else s.

Definition parse_address (s : string) : option Address :=
  let body := strip_0x s in
  if Nat.eqb (String.length body) 40 then hex_value body 0 else None.

(** The [GetNonce] arm (identical in both handlers). *)
Definition handle_get_nonce (client_tx : Chan) (address : string) : M unit :=
  match parse_address address with
  | Some addr =>
      r <- get_transaction_count addr ;;
      match r with
      | ROk nonce =>
          client_send client_tx (NonceResponse addr nonce) ;;;
          emit (EvEnqueue (Fund addr client_tx))
      | RErr e =>
          client_send client_tx (TxError ("Failed to get nonce: " ++ e)%string)
      end
  | None => ret tt
  end.

(** [const_hex::FromHexError] and its [Display]. *)
Inductive FromHexError :=
| OddLength
| InvalidHexCharacter (c : ascii) (index : nat).

(** A value [0..255] in hexadecimal without leading zeros. *)
Definition hex_min (n : Z) : string :=
  if n <? 16 then hex_digits 1 n EmptyString else hex_digits 2 n EmptyString.

(** [{:?}] of the [char] [b as char] of a byte [b] (U+0000..U+00FF):
    quoted, with Rust's escapes, and [\u{..}] for the characters that
    are not printable (controls, U+007F..U+00A0 and U+00AD); the others
    above U+007F are written in UTF-8. *)
Definition debug_char (c : ascii) : string :=
  let n := Z.of_nat (nat_of_ascii c) in
  let body :=
    if n =? 0 then "\0" else if n =? 9 then "\t" else if n =? 10 then "\n"
    else if n =? 13 then "\r" else if n =? 39 then "\'" else if n =? 92 then "\\"
    else if (32 <=? n) && (n <=? 126) then String c EmptyString
    else if (161 <=? n) && negb (n =? 173) then
      String (ascii_of_nat (Z.to_nat (192 + n / 64)))
        (String (ascii_of_nat (Z.to_nat (128 + n mod 64))) EmptyString)
    else ("\u{" ++ hex_min n ++ "}")%string in
  ("'" ++ body ++ "'")%string.

Definition from_hex_error_msg (e : FromHexError) : string :=
  match e with
  | OddLength => "odd number of digits"
  | InvalidHexCharacter c index =>
      ("invalid character " ++ debug_char c ++ " at position " ++ pretty index)%string
  end.

(** The first byte of [s] that is not a hexadecimal digit, with its
    position counted from [i]. *)
Fixpoint first_invalid (s : string) (i : nat) : option (ascii * nat) :=
  match s with
  | EmptyString => None
  | String c s' =>
      match hex_digit c with
      | Some _ => first_invalid s' (S i)
      | None => Some (c, i)
      end
  end.

(** [raw_tx.parse::<Bytes>()], that is [const_hex::decode]: an odd length
    is refused first, then the prefix is stripped and the first invalid
    character reported; the error is given as its [Display] text. *)
Definition parse_bytes (s : string) : Result unit :=
  if negb (Nat.even (String.length s)) then RErr (from_hex_error_msg OddLength)
  else
    match first_invalid (strip_0x s) 0 with
    | Some (c, index) => RErr (from_hex_error_msg (InvalidHexCharacter c index))
    | None => ROk tt
    end.

(** [str::is_char_boundary]: [i] is the length, or the byte at [i] is not
    a UTF-8 continuation byte (the string holds the UTF-8 encoding). *)
Definition is_char_boundary (s : string) (i : nat) : bool :=
  match String.get i s with
  | None => Nat.eqb i (String.length s)
  | Some c => negb ((128 <=? nat_of_ascii c)%nat && (nat_of_ascii c <=? 191)%nat)
  end.

(** One inbound message of [handle_axum_connection]; the [RestartGame]
    arm spawns [handle_restart_game] as a task of its own. *)
Definition handle_client_message (client_tx : Chan) (m : ClientMessage) : M unit :=
  match m with
  | SetName name address =>
      match parse_address address with
      | Some addr =>
          s <- get_state ;;
          put_state (set_name addr name s) ;;;
          broadcast (NameSet addr name)
      | None => ret tt
      end
  | RawTx raw_tx =>
      (* [&raw_tx[..20.min(raw_tx.len())]] in the [info!] line, evaluated
         at the default INFO level of [tracing_subscriber::fmt::init()] *)
      if negb (is_char_boundary raw_tx (Nat.min 20 (String.length raw_tx))) then panic
      else
        match parse_bytes raw_tx with
        | ROk _ =>
            r <- send_raw_transaction raw_tx ;;
            match r with
            | ROk tx_hash => client_send client_tx (TxSubmitted tx_hash)
            | RErr e =>
                client_send client_tx (TxError ("Failed to submit transaction: " ++ e)%string)
            end
        | RErr e =>
            client_send client_tx (TxError ("Failed to parse transaction: " ++ e)%string)
        end
  | GetNonce address => handle_get_nonce client_tx address
  | RestartGame => emit EvSpawnRestart
  end.

(** All the entry points that mutate [AppState]: one executor command, a
    restart saga (spawned by [RestartGame]), one log of the event stream,
    one inbound session message. *)
Inductive Op :=
| OpCommand (ev : BackendTxEvent)
| OpRestart
| OpLog (l : Log)
| OpClient (c : Chan) (m : ClientMessage).

Definition run_op (op : Op) : M unit :=
  match op with
  | OpCommand ev => handle_backend_event ev
  | OpRestart => handle_restart_game
  | OpLog l => process_log l
  | OpClient c m => handle_client_message c m
  end.

(** [AppState::new()] in its initial configuration, with a nonce. *)
Definition initial_state (nonce : Z) : AppState :=
  mkAppState ∅ ∅ 50 ∅ ∅ nonce 0 None None.

Definition world0 (s : AppState) (answers : list Resp) : World :=
  mkWorld s answers [] 7.

(** Whether a message is a game window status. *)
Definition is_window_status (m : ServerMessage) : bool :=
  match m with
  | GameStarted _ _ | GameEnded => true
  | _ => false
  end.

(** A state with the game window [start_block, end_block] at a height. *)
Definition window_state (start_block end_block height : Z) : AppState :=
  mkAppState ∅ ∅ 50 ∅ ∅ 5 height (Some start_block) (Some end_block).

Definition sample_gas : GasCosts := mkGasCosts 1 2 3.

(** A restart with no players whose [reset] is reverted after one poll
    that finds no receipt. *)
Definition reset_revert_world : World :=
  world0 (initial_state 5)
    [RSend (ROk 11); RReceipt (ROk None); RReceipt (ROk (Some false))].

(** Two registered players, 1 and 2. *)
Definition two_players : AppState := set_name 1 "a" (set_name 2 "b" (initial_state 5)).

(** A run of the executor, the saga, the chain pipeline and the sessions,
    one operation after the other. *)
Fixpoint run_ops (ops : list Op) : M unit :=
  match ops with
  | [] => ret tt
  | op :: rest => run_op op ;;; run_ops rest
  end.

(** The log of the scenario: [PriceUpdate{old:50,new:55,block:100}]. *)
Definition price_log : Log := mkLog (Some 2748) (Some 0) [PriceUpdate_SIG] [50; 55; 100].

Definition missing_both (l : Log) : Prop :=
  transaction_hash l = None /\ log_index l = None.

Global Instance missing_both_dec l : Decision (missing_both l).
Proof. unfold missing_both. apply _. Qed.

(** The top-up transaction of the restart saga's Step 1. *)
Definition funding_tx (addr bal nonce : Z) : Tx :=
  mkTx (CallTransfer addr (FUNDING_AMOUNT - bal)) nonce 25000 GAS_PRICE None.

(** The world after Step 1 has sent the top-up of [addr] (balance [bal]) as
    transaction [h], with answers [s'] left. *)
Definition funding_sent (addr bal h : Z) (s' : list Resp) (w : World) : World :=
  mkWorld (set_backend_nonce (backend_nonce (st w) + 1) (st w)) s'
    (trace w ++ [EvGetBalance addr (ROk bal);
                 EvSendTx (funding_tx addr bal (backend_nonce (st w))) (ROk h)])
    (signer w).

(** The transaction of [handle_tick_event]. *)
Definition tick_tx (nonce : Z) : Tx :=
  mkTx CallTick nonce 60000 GAS_PRICE (Some PRIORITY_FEE).

(** A restart with no players whose [reset] and [start] both succeed. *)
Definition restart_ok_world : World :=
  world0 (initial_state 5)
    [RSend (ROk 11); RReceipt (ROk (Some true)); RSend (ROk 12); RReceipt (ROk (Some true))].

(** A restart whose [start] receipt is found on the third poll. *)
Definition restart_slow_world : World :=
  world0 (initial_state 5)
    [RSend (ROk 11); RReceipt (ROk (Some true)); RSend (ROk 12); RReceipt (ROk None);
     RReceipt (ROk None); RReceipt (ROk (Some true))].

(** The address [0x00..00aB] (171), as a client writes it. *)
Definition addr_171 : string := "0x00000000000000000000000000000000000000aB".

(** A [Bought] log: user 171 bought 3 shares at 55 in block 100, now
    holding a balance of 900 and 4 shares. *)
Definition bought_log : Log := mkLog (Some 77) (Some 1) [Bought_SIG; 171] [3; 55; 100; 900; 4].

(** The events of [k] polls that find no receipt yet. *)
Definition empty_polls (h : TxHash) (k : nat) : list Event :=
  concat (repeat [EvGetReceipt h (ROk None); EvSleep] k).

(** A raw transaction whose byte 20 is the second byte of "é". *)
Definition split_utf8_tx : string :=
  ("0x" ++ "aaaaaaaaaaaaaaaaa" ++
   String (ascii_of_nat 195) (String (ascii_of_nat 169) EmptyString))%string.

(** * Proofs *)

(** ** Frame and monotonicity of the state *)

(** The order the invariants of GameState ask for: the nonce does not go
    down and [seen_logs] does not lose an element. *)
Definition state_le (s s' : AppState) : Prop :=
  backend_nonce s <= backend_nonce s' /\ seen_logs s ⊆ seen_logs s'.

(** [m] leaves the state as it is, whatever its outcome. *)
Definition keeps {A} (m : M A) : Prop :=
  forall w, st (res_world (m w)) = st w.

(** From a world whose state is [s0], [m] ends above [s0]. *)
Definition pres_at {A} (s0 : AppState) (m : M A) : Prop :=
  forall w, st w = s0 -> state_le s0 (st (res_world (m w))).

Definition preserves {A} (m : M A) : Prop := forall s, pres_at s m.

Lemma state_le_refl s : state_le s s.
Proof. split; [lia | set_solver]. Qed.

Lemma state_le_trans s1 s2 s3 : state_le s1 s2 -> state_le s2 s3 -> state_le s1 s3.
Proof. intros [? ?] [? ?]; split; [lia | set_solver]. Qed.

Lemma keeps_pres_at {A} (m : M A) s : keeps m -> pres_at s m.
Proof. intros Hk w <-. rewrite Hk. apply state_le_refl. Qed.

Lemma keeps_bind {A B} (m : M A) (k : A -> M B) :
  keeps m -> (forall a, keeps (k a)) -> keeps (bind m k).
Proof.
  intros Hm Hk w. unfold bind. specialize (Hm w).
  destruct (m w) eqn:E; simpl in *; [rewrite Hk | ..]; congruence.
Qed.

Lemma keeps_ret {A} (a : A) : keeps (ret a).
Proof. intros w; reflexivity. Qed.

Lemma keeps_raise {A} e : keeps (@raise A e).
Proof. intros w; reflexivity. Qed.

Lemma keeps_panic {A} : keeps (@panic A).
Proof. intros w; reflexivity. Qed.

Lemma keeps_hang {A} : keeps (@hang A).
Proof. intros w; reflexivity. Qed.

Lemma keeps_emit e : keeps (emit e).
Proof. intros w; reflexivity. Qed.

Lemma keeps_get_state : keeps get_state.
Proof. intros w; reflexivity. Qed.

Lemma keeps_signer : keeps default_signer_address.
Proof. intros w; reflexivity. Qed.

Lemma keeps_of_result {A} (r : Result A) : keeps (of_result r).
Proof. destruct r; intros w; reflexivity. Qed.

Lemma keeps_add_u64 a b : keeps (add_u64 a b).
Proof. unfold add_u64. destruct (_ <? _); intros w; reflexivity. Qed.

Lemma keeps_to_u64 a : keeps (to_u64 a).
Proof. unfold to_u64. destruct (_ <? _); intros w; reflexivity. Qed.

Lemma keeps_attempt {A} (m : M A) : keeps m -> keeps (attempt m).
Proof.
  intros Hm w. specialize (Hm w). unfold attempt. destruct (m w); exact Hm.
Qed.

Create HintDb keeps.
Create HintDb pres.

(** The ledger calls consume an answer and record an event. *)
Ltac keeps_call :=
  intros w;
  cbv [get_balance get_transaction_count send_transaction
       get_transaction_receipt view_call send_raw_transaction bind next_resp];
  destruct (script w) as [|[] ?]; reflexivity.

Lemma keeps_get_balance a : keeps (get_balance a).
Proof. keeps_call. Qed.

Lemma keeps_get_transaction_count a : keeps (get_transaction_count a).
Proof. keeps_call. Qed.

Lemma keeps_send_transaction tx : keeps (send_transaction tx).
Proof. keeps_call. Qed.

Lemma keeps_get_transaction_receipt h : keeps (get_transaction_receipt h).
Proof. keeps_call. Qed.

Lemma keeps_view_call f a : keeps (view_call f a).
Proof. keeps_call. Qed.

Lemma keeps_send_raw_transaction b : keeps (send_raw_transaction b).
Proof. keeps_call. Qed.

Global Hint Resolve keeps_bind keeps_ret keeps_raise keeps_panic keeps_hang
  keeps_emit keeps_get_state keeps_signer keeps_of_result keeps_add_u64
  keeps_to_u64 keeps_attempt keeps_get_balance keeps_get_transaction_count
  keeps_send_transaction keeps_get_transaction_receipt keeps_view_call
  keeps_send_raw_transaction : keeps.

Lemma keeps_poll_receipt_fuel n h : keeps (poll_receipt_fuel n h).
Proof.
  induction n as [|n IH]; simpl; [apply keeps_hang|].
  apply keeps_bind; [auto with keeps | intros r].
  apply keeps_bind; [auto with keeps | intros [status|]]; auto with keeps.
Qed.

Lemma keeps_poll_receipt h : keeps (poll_receipt h).
Proof. intros w. apply keeps_poll_receipt_fuel. Qed.

Global Hint Resolve keeps_poll_receipt keeps_poll_receipt_fuel : keeps.

Lemma pres_at_get {A} s (k : AppState -> M A) :
  pres_at s (k s) -> pres_at s (bind get_state k).
Proof. intros H w Hw. unfold bind, get_state. rewrite Hw. apply H, Hw. Qed.

Lemma pres_at_bind_keep {A B} s (m : M A) (k : A -> M B) :
  keeps m -> (forall a, pres_at s (k a)) -> pres_at s (bind m k).
Proof.
  intros Hm Hk w Hw. specialize (Hm w). unfold bind.
  destruct (m w) eqn:E; simpl in *; try (rewrite Hm, Hw; apply state_le_refl).
  apply Hk. congruence.
Qed.

Lemma pres_at_bind {A B} s (m : M A) (k : A -> M B) :
  preserves m -> (forall a, preserves (k a)) -> pres_at s (bind m k).
Proof.
  intros Hm Hk w Hw. specialize (Hm s w Hw). unfold bind.
  destruct (m w) eqn:E; simpl in *; try exact Hm.
  eapply state_le_trans; [exact Hm | apply Hk; reflexivity].
Qed.

Lemma pres_at_put_then {A} s s1 (k : unit -> M A) :
  state_le s s1 -> (forall a, pres_at s1 (k a)) -> pres_at s (bind (put_state s1) k).
Proof.
  intros Hle Hk w Hw. unfold bind, put_state.
  eapply state_le_trans; [exact Hle | apply Hk; reflexivity].
Qed.

Lemma pres_at_put s s1 : state_le s s1 -> pres_at s (put_state s1).
Proof. intros Hle w Hw. exact Hle. Qed.

Lemma pres_at_add_u64 {A} s a b (k : Z -> M A) :
  pres_at s (k (a + b)) -> pres_at s (bind (add_u64 a b) k).
Proof.
  intros H w Hw. unfold bind, add_u64.
  destruct (_ <? _); [apply H, Hw | subst; apply state_le_refl].
Qed.

Ltac zbool :=
  repeat match goal with
  | H : (_ <? _) = true |- _ => apply Z.ltb_lt in H
  | H : (_ <? _) = false |- _ => apply Z.ltb_ge in H
  | H : (_ <=? _) = true |- _ => apply Z.leb_le in H
  | H : (_ <=? _) = false |- _ => apply Z.leb_gt in H
  | H : (_ =? _) = true |- _ => apply Z.eqb_eq in H
  | H : (_ =? _) = false |- _ => apply Z.eqb_neq in H
  end.

Ltac pres_solve_le :=
  zbool; unfold state_le; simpl; split; [lia | set_solver].

Ltac pres_step :=
  cbv beta zeta;
  match goal with
  | |- preserves _ => intros ?s
  | |- pres_at _ (bind get_state _) => apply pres_at_get
  | |- pres_at _ (bind (put_state _) _) =>
      apply pres_at_put_then; [pres_solve_le | intros []]
  | |- pres_at _ (put_state _) => apply pres_at_put; pres_solve_le
  | |- pres_at _ (bind (add_u64 _ _) _) => apply pres_at_add_u64
  | |- pres_at _ (bind (if ?b then _ else _) _) => destruct b eqn:?
  | |- pres_at _ (bind (match ?x with _ => _ end) _) => destruct x eqn:?
  | |- pres_at _ (bind _ _) =>
      apply pres_at_bind_keep; [solve [auto with keeps] | intros ?]
  | |- pres_at _ (bind _ _) =>
      apply pres_at_bind; [solve [auto with pres] | intros ?]
  | |- pres_at _ (if ?b then _ else _) => destruct b eqn:?
  | |- pres_at _ (match ?x with _ => _ end) => destruct x eqn:?
  | |- pres_at _ _ => apply keeps_pres_at; solve [auto with keeps]
  | |- pres_at _ _ => solve [auto with pres]
  end.

Ltac pres := repeat pres_step.

Lemma reserve_nonce_pres : preserves reserve_nonce.
Proof. unfold reserve_nonce. pres. Qed.

Lemma preserves_pres_at {A} (m : M A) s : preserves m -> pres_at s m.
Proof. intros H; apply H. Qed.

Lemma attempt_pres {A} (m : M A) : preserves m -> preserves (attempt m).
Proof.
  intros H s w Hw. specialize (H s w Hw). unfold attempt.
  destruct (m w); exact H.
Qed.

Global Hint Resolve preserves_pres_at attempt_pres reserve_nonce_pres : pres.

Lemma report_funded_keeps a c b : keeps (report_funded a c b).
Proof.
  unfold report_funded.
  repeat (apply keeps_bind; [auto with keeps | intros ?]); auto with keeps.
  case_match; auto with keeps.
Qed.

Global Hint Resolve report_funded_keeps : keeps.

Lemma handle_fund_event_pres a c : preserves (handle_fund_event a c).
Proof. unfold handle_fund_event. pres. Qed.

Lemma handle_tick_event_pres : preserves handle_tick_event.
Proof. unfold handle_tick_event. pres. Qed.

Global Hint Resolve handle_fund_event_pres handle_tick_event_pres : pres.

Lemma tick_recover_pres msg : preserves (tick_recover msg).
Proof. unfold tick_recover. pres. Qed.

Global Hint Resolve tick_recover_pres : pres.

Lemma handle_backend_event_pres ev : preserves (handle_backend_event ev).
Proof. unfold handle_backend_event. destruct ev; pres. Qed.

Lemma fund_player_pres a : preserves (fund_player a).
Proof. unfold fund_player. pres. Qed.

Global Hint Resolve fund_player_pres : pres.

Lemma fund_players_pres l : preserves (fund_players l).
Proof.
  induction l as [|a l IH]; simpl; [pres|].
  intros s. apply pres_at_bind; auto with pres.
Qed.

Global Hint Resolve fund_players_pres : pres.

Lemma restart_prefix_pres : preserves restart_prefix.
Proof. unfold restart_prefix. pres. Qed.

Lemma restart_start_pres : preserves restart_start.
Proof. unfold restart_start. pres. Qed.

Global Hint Resolve restart_prefix_pres restart_start_pres : pres.

Lemma handle_restart_game_pres : preserves handle_restart_game.
Proof. unfold handle_restart_game. pres. Qed.

Lemma project_trade_pres b d : preserves (project_trade b d).
Proof. unfold project_trade. pres. Qed.

Global Hint Resolve project_trade_pres : pres.

Lemma project_log_pres l : preserves (project_log l).
Proof. unfold project_log. pres. Qed.

Global Hint Resolve project_log_pres : pres.

Lemma process_log_pres l : preserves (process_log l).
Proof. unfold process_log. pres. Qed.

Lemma handle_client_message_pres c m : preserves (handle_client_message c m).
Proof. unfold handle_client_message, handle_get_nonce. destruct m; pres. Qed.

Global Hint Resolve handle_backend_event_pres handle_restart_game_pres
  process_log_pres handle_client_message_pres : pres.

Lemma process_chain_events_pres ls : preserves (process_chain_events ls).
Proof.
  induction ls as [|l ls IH]; simpl; [pres|].
  intros s. apply pres_at_bind; auto with pres.
Qed.

Lemma run_op_pres op : preserves (run_op op).
Proof. destruct op; simpl; auto with pres. Qed.

Global Hint Resolve run_op_pres : pres.

Lemma run_ops_pres ops : preserves (run_ops ops).
Proof.
  induction ops as [|op ops IH]; simpl; [pres|].
  intros s. apply pres_at_bind; auto with pres.
Qed.

(** ** Deduplication *)

Lemma bind_assoc {A B C} (m : M A) (f : A -> M B) (g : B -> M C) w :
  bind (bind m f) g w = bind m (fun a => bind (f a) g) w.
Proof. unfold bind. destruct (m w); reflexivity. Qed.

Lemma process_chain_events_app xs ys w :
  process_chain_events (xs ++ ys) w =
  bind (process_chain_events xs) (fun _ => process_chain_events ys) w.
Proof.
  revert w. induction xs as [|x xs IH]; intros w; simpl; [reflexivity|].
  rewrite bind_assoc. unfold bind.
  destruct (process_log x w); [apply IH | ..]; reflexivity.
Qed.

(** A log whose key was already seen changes nothing and sends nothing. *)
Lemma process_log_seen_noop l w :
  log_key l ∈ seen_logs (st w) -> process_log l w = Done tt w.
Proof.
  intros H. unfold process_log, bind, get_state.
  destruct (decide _); [reflexivity | contradiction].
Qed.

(** After a log is processed, whatever the outcome, its key is seen. *)
Lemma process_log_key_seen l w :
  log_key l ∈ seen_logs (st (res_world (process_log l w))).
Proof.
  destruct (decide (log_key l ∈ seen_logs (st w))) as [Hin|Hnin].
  - rewrite process_log_seen_noop by exact Hin. exact Hin.
  - unfold process_log, bind at 1, get_state.
    destruct (decide _) as [Hin|_]; [contradiction|].
    unfold bind at 1, put_state.
    set (w1 := with_state _ w).
    destruct (project_log_pres l (st w1) w1 eq_refl) as [_ Hs].
    simpl in Hs |- *. set_solver.
Qed.

(** Once a key is seen, every later log with that key is dropped. *)
Lemma process_chain_events_skip_seen k ys w :
  k ∈ seen_logs (st w) ->
  process_chain_events ys w =
  process_chain_events (filter (fun x => log_key x ≠ k) ys) w.
Proof.
  revert w. induction ys as [|x ys IH]; intros w Hk; [reflexivity|].
  rewrite filter_cons. simpl.
  destruct (decide (log_key x ≠ k)) as [Hne|Heq].
  - simpl. unfold bind. destruct (process_log x w) as [[] w1| | |] eqn:E;
      try reflexivity.
    apply IH. destruct (process_log_pres x (st w) w eq_refl) as [_ Hs].
    rewrite E in Hs. simpl in Hs. set_solver.
  - apply dec_stable in Heq. subst k.
    unfold bind. rewrite process_log_seen_noop by exact Hk. apply IH, Hk.
Qed.

Lemma process_chain_events_cons_seen l rest w :
  process_chain_events (l :: rest) w =
  bind (process_log l)
    (fun _ => process_chain_events (filter (fun x => log_key x ≠ log_key l) rest)) w.
Proof.
  simpl. unfold bind. pose proof (process_log_key_seen l w) as Hk.
  destruct (process_log l w) as [[] w1| | |]; try reflexivity.
  apply process_chain_events_skip_seen, Hk.
Qed.

Lemma price_log_twice w :
  log_key price_log ∉ seen_logs (st w) ->
  exists w', process_chain_events [price_log; price_log] w = Done tt w' /\
    current_price (st w') = 55 /\
    trace w' = trace w ++ [EvChainBroadcast (CPriceUpdate 50 55 100)].
Proof.
  intros Hn. rewrite process_chain_events_cons_seen.
  unfold bind at 1, process_log, bind at 1, get_state.
  destruct (decide _); [contradiction|].
  simpl. eexists. split; [reflexivity|]. split; reflexivity.
Qed.

Lemma filter_drop_subsumed (P Q : Log -> Prop)
    `{forall x, Decision (P x)} `{forall x, Decision (Q x)} (ys : list Log) :
  (forall x, ~ Q x -> ~ P x) -> filter P ys = filter P (filter Q ys).
Proof.
  intros HPQ. induction ys as [|y ys IH]; [reflexivity|].
  rewrite (filter_cons Q). destruct (decide (Q y)) as [Hq|Hq].
  - rewrite !filter_cons. destruct (decide (P y)); congruence.
  - rewrite filter_cons. destruct (decide (P y)) as [Hp|Hp]; [exfalso; eapply HPQ; eauto|].
    exact IH.
Qed.

(** [C1] Feeding the same raw log twice through the event pipeline gives
    exactly one projection and one set of notifications: in any stream, a
    second occurrence of a log changes neither the final state nor the
    broadcasts.  In the scenario, [PriceUpdate{old:50,new:55,block:100}]
    delivered twice leaves [current_price = 55] and exactly one
    [PriceUpdate] broadcast. *)
Theorem dedup_idempotent :
  (forall (xs ys zs : list Log) (l : Log) (w : World),
     process_chain_events (xs ++ l :: ys ++ l :: zs) w =
     process_chain_events (xs ++ l :: ys ++ zs) w) /\
  (forall w : World,
     log_key price_log ∉ seen_logs (st w) ->
     exists w', process_chain_events [price_log; price_log] w = Done tt w' /\
       current_price (st w') = 55 /\
       trace w' = trace w ++ [EvChainBroadcast (CPriceUpdate 50 55 100)]).
Proof.
  split; [|exact price_log_twice].
  intros xs ys zs l w. rewrite !process_chain_events_app.
  unfold bind. destruct (process_chain_events xs w) as [[] w1| | |];
    try reflexivity.
  rewrite !process_chain_events_cons_seen. rewrite !filter_app, filter_cons.
  destruct (decide (log_key l ≠ log_key l)); [congruence | reflexivity].
Qed.

(** [C10] A log without transaction hash and log index gets the key
    (zero hash, 0); after one such log is processed, every later one is
    dropped whatever its payload: the stream behaves as if they were
    removed from it. *)
Theorem missing_ids_collide :
  forall (xs ys : list Log) (l : Log) (w : World),
    missing_both l ->
    log_key l = (0, 0) /\
    process_chain_events (xs ++ l :: ys) w =
    process_chain_events (xs ++ l :: filter (fun x => ~ missing_both x) ys) w.
Proof.
  intros xs ys l w [Hh Hi].
  assert (Hk : log_key l = (0, 0)) by (unfold log_key; rewrite Hh, Hi; reflexivity).
  split; [exact Hk|].
  rewrite !process_chain_events_app. unfold bind.
  destruct (process_chain_events xs w) as [[] w1| | |]; try reflexivity.
  rewrite !process_chain_events_cons_seen.
  rewrite (filter_drop_subsumed _ (fun x => ~ missing_both x) ys); [reflexivity|].
  intros x Hx. apply dec_stable in Hx. destruct Hx as [Hxh Hxi].
  unfold log_key at 1. rewrite Hxh, Hxi, Hk. simpl. auto.
Qed.

(** [C7] Every operation that mutates the shared state (an executor
    command, the restart saga, a log of the event stream, a session
    message), and every sequence of them, leaves [backend_nonce] at or
    above its value before and [seen_logs] a superset of what it was,
    whatever the outcome (success, error, panic or a wait that never
    ends). *)
Theorem state_invariants_preserved :
  (forall (op : Op) (w : World),
     backend_nonce (st w) <= backend_nonce (st (res_world (run_op op w))) /\
     seen_logs (st w) ⊆ seen_logs (st (res_world (run_op op w)))) /\
  (forall (ops : list Op) (w : World),
     backend_nonce (st w) <= backend_nonce (st (res_world (run_ops ops w))) /\
     seen_logs (st w) ⊆ seen_logs (st (res_world (run_ops ops w)))).
Proof.
  split.
  - intros op w. exact (run_op_pres op (st w) w eq_refl).
  - intros ops w. exact (run_ops_pres ops (st w) w eq_refl).
Qed.

(** ** What a computation adds to the trace *)

(** [m] only appends to the trace, and only events satisfying [P]. *)
Definition trace_ext (P : Event -> Prop) {A} (m : M A) : Prop :=
  forall w, exists new, trace (res_world (m w)) = trace w ++ new /\ Forall P new.

Section TraceExt.
Variable P : Event -> Prop.

Lemma ext_keep_trace {A} (m : M A) :
  (forall w, trace (res_world (m w)) = trace w) -> trace_ext P m.
Proof. intros H w. exists []. rewrite H, app_nil_r. auto. Qed.

Lemma ext_bind {A B} (m : M A) (k : A -> M B) :
  trace_ext P m -> (forall a, trace_ext P (k a)) -> trace_ext P (bind m k).
Proof.
  intros Hm Hk w. destruct (Hm w) as [n1 [E1 F1]]. unfold bind.
  destruct (m w) as [a w1|e w1|w1|w1]; simpl in *; eauto.
  destruct (Hk a w1) as [n2 [E2 F2]]. exists (n1 ++ n2).
  rewrite E2, E1, app_assoc. split; [reflexivity | apply Forall_app; auto].
Qed.

Lemma ext_attempt {A} (m : M A) : trace_ext P m -> trace_ext P (attempt m).
Proof.
  intros Hm w. destruct (Hm w) as [n1 [E1 F1]]. unfold attempt.
  destruct (m w); eauto.
Qed.

Lemma ext_emit e : P e -> trace_ext P (emit e).
Proof. intros He w. exists [e]. auto. Qed.

Lemma ext_ret {A} (a : A) : trace_ext P (ret a).
Proof. apply ext_keep_trace; reflexivity. Qed.

Lemma ext_raise {A} e : trace_ext P (@raise A e).
Proof. apply ext_keep_trace; reflexivity. Qed.

Lemma ext_hang {A} : trace_ext P (@hang A).
Proof. apply ext_keep_trace; reflexivity. Qed.

Lemma ext_get_state : trace_ext P get_state.
Proof. apply ext_keep_trace; reflexivity. Qed.

Lemma ext_put_state s : trace_ext P (put_state s).
Proof. apply ext_keep_trace; reflexivity. Qed.

Lemma ext_signer : trace_ext P default_signer_address.
Proof. apply ext_keep_trace; reflexivity. Qed.

Lemma ext_of_result {A} (r : Result A) : trace_ext P (of_result r).
Proof. destruct r; apply ext_keep_trace; reflexivity. Qed.

Lemma ext_add_u64 a b : trace_ext P (add_u64 a b).
Proof. unfold add_u64; destruct (_ <? _); apply ext_keep_trace; reflexivity. Qed.

Lemma ext_to_u64 a : trace_ext P (to_u64 a).
Proof. unfold to_u64; destruct (_ <? _); apply ext_keep_trace; reflexivity. Qed.

Lemma ext_next_resp : trace_ext P next_resp.
Proof.
  apply ext_keep_trace. intros w. unfold next_resp. by destruct (script w).
Qed.

Ltac ext_call :=
  apply ext_bind; [apply ext_next_resp | intros [[]|]];
  try (apply ext_bind; [apply ext_emit; auto | intros; apply ext_ret]);
  apply ext_hang.

Lemma ext_get_balance a : (forall r, P (EvGetBalance a r)) -> trace_ext P (get_balance a).
Proof. intros H. unfold get_balance. ext_call. Qed.

Lemma ext_get_transaction_count a :
  (forall r, P (EvGetTxCount a r)) -> trace_ext P (get_transaction_count a).
Proof. intros H. unfold get_transaction_count. ext_call. Qed.

Lemma ext_send_transaction tx :
  (forall r, P (EvSendTx tx r)) -> trace_ext P (send_transaction tx).
Proof. intros H. unfold send_transaction. ext_call. Qed.

Lemma ext_get_transaction_receipt h :
  (forall r, P (EvGetReceipt h r)) -> trace_ext P (get_transaction_receipt h).
Proof. intros H. unfold get_transaction_receipt. ext_call. Qed.

Lemma ext_view_call f a : (forall r, P (EvView f a r)) -> trace_ext P (view_call f a).
Proof. intros H. unfold view_call. ext_call. Qed.

Lemma ext_poll_receipt_fuel n h :
  (forall r, P (EvGetReceipt h r)) -> P EvSleep -> trace_ext P (poll_receipt_fuel n h).
Proof.
  intros H1 H2. induction n as [|n IH]; simpl; [apply ext_hang|].
  apply ext_bind; [apply ext_get_transaction_receipt, H1 | intros r].
  apply ext_bind; [apply ext_of_result | intros [status|]];
    [apply ext_ret | apply ext_bind; [apply ext_emit, H2 | intros; exact IH]].
Qed.

Lemma ext_poll_receipt h :
  (forall r, P (EvGetReceipt h r)) -> P EvSleep -> trace_ext P (poll_receipt h).
Proof.
  intros H1 H2 w. exact (ext_poll_receipt_fuel (S (length (script w))) h H1 H2 w).
Qed.
End TraceExt.

Ltac ext_side := intros; cbn; exact I.

Ltac ext_step :=
  cbv beta zeta;
  match goal with
  | |- trace_ext _ (bind (if ?b then _ else _) _) => destruct b
  | |- trace_ext _ (bind (match ?x with _ => _ end) _) => destruct x
  | |- trace_ext _ (bind _ _) => apply ext_bind; [ | intros ?]
  | |- trace_ext _ (if ?b then _ else _) => destruct b
  | |- trace_ext _ (match ?x with _ => _ end) => destruct x
  | |- trace_ext _ (attempt _) => apply ext_attempt
  | |- trace_ext _ (ret _) => apply ext_ret
  | |- trace_ext _ (raise _) => apply ext_raise
  | |- trace_ext _ hang => apply ext_hang
  | |- trace_ext _ get_state => apply ext_get_state
  | |- trace_ext _ (put_state _) => apply ext_put_state
  | |- trace_ext _ default_signer_address => apply ext_signer
  | |- trace_ext _ (of_result _) => apply ext_of_result
  | |- trace_ext _ (add_u64 _ _) => apply ext_add_u64
  | |- trace_ext _ (to_u64 _) => apply ext_to_u64
  | |- trace_ext _ (emit _) => apply ext_emit; ext_side
  | |- trace_ext _ (broadcast _) => apply ext_emit; ext_side
  | |- trace_ext _ (client_send _ _) => apply ext_emit; ext_side
  | |- trace_ext _ (get_balance _) => apply ext_get_balance; ext_side
  | |- trace_ext _ (get_transaction_count _) => apply ext_get_transaction_count; ext_side
  | |- trace_ext _ (send_transaction _) => apply ext_send_transaction; ext_side
  | |- trace_ext _ (view_call _ _) => apply ext_view_call; ext_side
  | |- trace_ext _ (poll_receipt _) => apply ext_poll_receipt; ext_side
  | |- trace_ext _ reserve_nonce => unfold reserve_nonce
  | |- trace_ext _ _ => solve [eauto with ext]
  end.

Ltac ext := repeat ext_step.

Create HintDb ext.

(** No [start] transaction is sent. *)
Definition not_start (e : Event) : Prop :=
  match e with
  | EvSendTx tx _ => match tx_call tx with CallStart _ => False | _ => True end
  | _ => True
  end.

(** No transaction is sent at all. *)
Definition not_send (e : Event) : Prop :=
  match e with EvSendTx _ _ => False | _ => True end.

Lemma fund_player_no_start a : trace_ext not_start (fund_player a).
Proof. unfold fund_player. ext. Qed.

Lemma fund_players_no_start l : trace_ext not_start (fund_players l).
Proof.
  induction l as [|a l IH]; simpl; [apply ext_ret|].
  apply ext_bind; [apply fund_player_no_start | intros; exact IH].
Qed.

Global Hint Resolve fund_players_no_start : ext.

Lemma restart_prefix_no_start : trace_ext not_start restart_prefix.
Proof. unfold restart_prefix. ext. Qed.

Lemma report_funded_no_send a c b : trace_ext not_send (report_funded a c b).
Proof. unfold report_funded. ext. Qed.

Lemma set_backend_nonce_same s : set_backend_nonce (backend_nonce s) s = s.
Proof. destruct s; reflexivity. Qed.

(** [C2] A tick failure in the catch-all bucket, when the transaction
    count query answers [C] and the local nonce is [L], leaves the nonce
    at [max L C] (adopted when [C > L], kept otherwise); nothing else in
    the state changes. *)
Theorem resync_takes_max (msg : string) (C : Z) (rest : list Resp) (w : World) :
  classify_tick_error msg = OtherFailure ->
  script w = RTxCount (ROk C) :: rest ->
  tick_recover msg w =
  Done tt (mkWorld (set_backend_nonce (Z.max (backend_nonce (st w)) C) (st w)) rest
             (trace w ++ [EvGetTxCount (signer w) (ROk C)]) (signer w)).
Proof.
  intros Hc Hs. unfold classify_tick_error in Hc. unfold tick_recover.
  destruct (str_contains msg "Already ticked this block"); [discriminate|].
  destruct (str_contains msg "higher priority"); [discriminate|].
  unfold bind, default_signer_address, get_transaction_count, bind, next_resp.
  rewrite Hs. cbn.
  destruct (Z.ltb_spec (backend_nonce (st w)) C) as [Hlt|Hge].
  - rewrite Z.max_r by lia. reflexivity.
  - rewrite Z.max_l by lia. rewrite set_backend_nonce_same.
    destruct (C =? _); reflexivity.
Qed.

(** [C3] A tick failure classified as "higher priority" adds 20 to the
    nonce and changes nothing else: no other field, no ledger call, no
    message.  (A [u64] overflow of the addition panics.) *)
Theorem resync_skips_twenty (msg : string) (w : World) :
  classify_tick_error msg = HigherPriority ->
  tick_recover msg w =
  if backend_nonce (st w) + 20 <? U64_LIMIT
  then Done tt (with_state (set_backend_nonce (backend_nonce (st w) + 20) (st w)) w)
  else Panic w.
Proof.
  intros Hc. unfold classify_tick_error in Hc. unfold tick_recover.
  destruct (str_contains msg "Already ticked this block"); [discriminate|].
  destruct (str_contains msg "higher priority"); [|discriminate].
  unfold bind, get_state, add_u64.
  destruct (_ <? _); reflexivity.
Qed.

(** [C9] A [GetNonce] request whose address parses and whose transaction
    count query succeeds sends [NonceResponse] on the session's private
    channel and then enqueues [Fund] for that address, with the same
    channel as reply channel. *)
Theorem get_nonce_enqueues_fund (c : Chan) (address : string) (addr : Address)
    (n : Z) (rest : list Resp) (w : World) :
  parse_address address = Some addr ->
  script w = RTxCount (ROk n) :: rest ->
  handle_client_message c (GetNonce address) w =
  Done tt (mkWorld (st w) rest
             (trace w ++ [EvGetTxCount addr (ROk n);
                          EvClientSend c (NonceResponse addr n);
                          EvEnqueue (Fund addr c)]) (signer w)).
Proof.
  intros Hp Hs. simpl. unfold handle_get_nonce. rewrite Hp.
  unfold bind, get_transaction_count, bind, next_resp. rewrite Hs. cbn.
  cbv [emit record with_script]. simpl. rewrite <- !app_assoc. reflexivity.
Qed.

(** [C4] When the receipt of the [reset] transaction reports a revert,
    the saga returns the error "Reset transaction failed", and no [start]
    transaction was sent at any point of the run. *)
Theorem reset_revert_aborts (w w1 w2 : World) (h : TxHash) :
  restart_prefix w = Done h w1 ->
  poll_receipt h w1 = Done false w2 ->
  handle_restart_game w = Fail "Reset transaction failed" w2 /\
  exists new, trace w2 = trace w ++ new /\ Forall not_start new.
Proof.
  intros H1 H2. split.
  - unfold handle_restart_game, bind. rewrite H1. cbv beta. rewrite H2. reflexivity.
  - destruct (restart_prefix_no_start w) as [n1 [E1 F1]].
    rewrite H1 in E1. simpl in E1.
    destruct (ext_poll_receipt not_start h ltac:(ext_side) I w1) as [n2 [E2 F2]].
    rewrite H2 in E2. simpl in E2.
    exists (n1 ++ n2). rewrite E2, E1, app_assoc.
    split; [reflexivity | apply Forall_app; auto].
Qed.

Lemma fund_event_balance_positive addr c bal rest w :
  0 < bal ->
  script w = RBalance (ROk bal) :: rest ->
  handle_backend_event (Fund addr c) w =
  bind (attempt (report_funded addr c bal))
    (fun r => match r with
              | ROk _ => ret tt
              | RErr e => client_send c (FundError addr ("Failed to fund account: " ++ e))
              end)
    (record (EvGetBalance addr (ROk bal)) (with_script rest w)).
Proof.
  intros Hb Hs. unfold handle_backend_event, handle_fund_event.
  unfold bind at 1 3 5, attempt at 1. unfold get_balance, bind at 1 2, next_resp.
  rewrite Hs. cbn - [report_funded].
  destruct (Z.ltb_spec 0 bal); [|lia]. reflexivity.
Qed.


Ltac run_code :=
  cbv [fund_player bind get_balance send_transaction get_transaction_receipt
       next_resp of_result raise ret emit record with_script with_state
       reserve_nonce get_state put_state add_u64 poll_receipt];
  cbn.

Lemma poll_receipt_fuel_skip n k h r rest w :
  (k < n)%nat ->
  script w = repeat (RReceipt (ROk None)) k ++ RReceipt r :: rest ->
  poll_receipt_fuel n h w =
  poll_receipt_fuel (n - k) h
    (mkWorld (st w) (RReceipt r :: rest) (trace w ++ empty_polls h k) (signer w)).
Proof.
  revert n w. induction k as [|k IH]; intros n w Hk Hs.
  - simpl in Hs. rewrite Nat.sub_0_r, app_nil_r, <- Hs. destruct w; reflexivity.
  - destruct n as [|n]; [lia|]. simpl in Hs.
    cbn [poll_receipt_fuel]. unfold bind at 1, get_transaction_receipt, bind at 1, next_resp.
    rewrite Hs. cbn. rewrite (IH n) by (simpl; auto with lia).
    simpl. rewrite <- !app_assoc. reflexivity.
Qed.

(** A receipt poll that first finds nothing [k] times. *)
Lemma poll_receipt_after_empty h k r rest w :
  script w = repeat (RReceipt (ROk None)) k ++ RReceipt r :: rest ->
  poll_receipt h w =
  bind (of_result r) (fun x => match x with
                               | Some status => ret status
                               | None => emit EvSleep ;;; poll_receipt_fuel (S (length rest)) h
                               end)
    (mkWorld (st w) rest (trace w ++ empty_polls h k ++ [EvGetReceipt h r]) (signer w)).
Proof.
  intros Hs. unfold poll_receipt.
  rewrite (poll_receipt_fuel_skip _ k h r rest w); [|rewrite Hs, length_app, repeat_length; simpl; lia|exact Hs].
  rewrite Hs, length_app, repeat_length.
  replace (S (k + length (RReceipt r :: rest)) - k)%nat with (S (S (length rest))) by (simpl; lia).
  cbn [poll_receipt_fuel].
  cbv [bind get_transaction_receipt next_resp emit ret record with_script]. cbn.
  rewrite <- !app_assoc. reflexivity.
Qed.

Lemma poll_receipt_mined h k b rest w :
  script w = repeat (RReceipt (ROk None)) k ++ RReceipt (ROk (Some b)) :: rest ->
  poll_receipt h w =
  Done b (mkWorld (st w) rest
            (trace w ++ empty_polls h k ++ [EvGetReceipt h (ROk (Some b))]) (signer w)).
Proof. intros Hs. rewrite (poll_receipt_after_empty h k _ rest w Hs). reflexivity. Qed.

Lemma poll_receipt_error h k e rest w :
  script w = repeat (RReceipt (ROk None)) k ++ RReceipt (RErr e) :: rest ->
  poll_receipt h w =
  Fail e (mkWorld (st w) rest
            (trace w ++ empty_polls h k ++ [EvGetReceipt h (RErr e)]) (signer w)).
Proof. intros Hs. rewrite (poll_receipt_after_empty h k _ rest w Hs). reflexivity. Qed.

Lemma fund_player_sent addr bal h s' w :
  script w = RBalance (ROk bal) :: RSend (ROk h) :: s' ->
  bal < MIN_BALANCE -> backend_nonce (st w) + 1 < U64_LIMIT ->
  fund_player addr w =
  bind (poll_receipt h)
    (fun status => if status then (amount <- to_u64 FUNDING_AMOUNT ;;
                                   broadcast (Funded addr amount))
                   else ret tt)
    (funding_sent addr bal h s' w).
Proof.
  intros Hs Hb Hn. apply Z.ltb_lt in Hb, Hn.
  cbv [fund_player bind get_balance send_transaction next_resp of_result ret emit
       record with_script with_state reserve_nonce get_state put_state add_u64].
  rewrite Hs. cbn - [poll_receipt]. rewrite Hb. cbn - [poll_receipt]. rewrite Hn.
  cbn - [poll_receipt]. unfold funding_sent, funding_tx. rewrite <- !app_assoc.
  reflexivity.
Qed.

Lemma fund_player_reverted addr bal h k s' w :
  script w = RBalance (ROk bal) :: RSend (ROk h) ::
             repeat (RReceipt (ROk None)) k ++ RReceipt (ROk (Some false)) :: s' ->
  bal < MIN_BALANCE -> backend_nonce (st w) + 1 < U64_LIMIT ->
  fund_player addr w =
  Done tt (mkWorld (set_backend_nonce (backend_nonce (st w) + 1) (st w)) s'
             (trace w ++ [EvGetBalance addr (ROk bal);
                          EvSendTx (funding_tx addr bal (backend_nonce (st w))) (ROk h)] ++
                         empty_polls h k ++ [EvGetReceipt h (ROk (Some false))]) (signer w)).
Proof.
  intros Hs Hb Hn. rewrite (fund_player_sent addr bal h _ w Hs Hb Hn).
  unfold bind at 1. rewrite (poll_receipt_mined h k false s') by reflexivity.
  cbn. rewrite <- !app_assoc. reflexivity.
Qed.

(** [C6], as the code has it.  In Step 1 of the restart saga a reverted
    top-up does not stop the loop, however many polls find no receipt
    before it is mined: the loop goes on with the next address, as after
    a success.  But an error of the balance query, of the send or of a
    receipt poll for one address ends the loop at once with that error
    (the later addresses are not looked at), and the saga returns it. *)
Theorem fund_loop_outcomes (addr : Address) (rest : list Address) (w : World) :
  (forall bal h k s',
     script w = RBalance (ROk bal) :: RSend (ROk h) ::
                repeat (RReceipt (ROk None)) k ++ RReceipt (ROk (Some false)) :: s' ->
     bal < MIN_BALANCE -> backend_nonce (st w) + 1 < U64_LIMIT ->
     fund_players (addr :: rest) w =
     fund_players rest
       (mkWorld (set_backend_nonce (backend_nonce (st w) + 1) (st w)) s'
          (trace w ++ [EvGetBalance addr (ROk bal);
                       EvSendTx (funding_tx addr bal (backend_nonce (st w))) (ROk h)] ++
                      empty_polls h k ++ [EvGetReceipt h (ROk (Some false))]) (signer w))) /\
  (forall e s',
     script w = RBalance (RErr e) :: s' ->
     fund_players (addr :: rest) w =
     Fail e (mkWorld (st w) s' (trace w ++ [EvGetBalance addr (RErr e)]) (signer w))) /\
  (forall bal e s',
     script w = RBalance (ROk bal) :: RSend (RErr e) :: s' ->
     bal < MIN_BALANCE -> backend_nonce (st w) + 1 < U64_LIMIT ->
     fund_players (addr :: rest) w =
     Fail e (mkWorld (set_backend_nonce (backend_nonce (st w) + 1) (st w)) s'
               (trace w ++ [EvGetBalance addr (ROk bal);
                            EvSendTx (funding_tx addr bal (backend_nonce (st w))) (RErr e)])
               (signer w))) /\
  (forall bal h k e s',
     script w = RBalance (ROk bal) :: RSend (ROk h) ::
                repeat (RReceipt (ROk None)) k ++ RReceipt (RErr e) :: s' ->
     bal < MIN_BALANCE -> backend_nonce (st w) + 1 < U64_LIMIT ->
     fund_players (addr :: rest) w =
     Fail e (mkWorld (set_backend_nonce (backend_nonce (st w) + 1) (st w)) s'
               (trace w ++ [EvGetBalance addr (ROk bal);
                            EvSendTx (funding_tx addr bal (backend_nonce (st w))) (ROk h)] ++
                           empty_polls h k ++ [EvGetReceipt h (RErr e)])
               (signer w))) /\
  (forall e w1,
     fund_players (name_keys (st w)) w = Fail e w1 ->
     handle_restart_game w = Fail e w1).
Proof.
  split; [|split; [|split; [|split]]].
  - intros bal h k s' Hs Hb Hn. simpl. unfold bind at 1.
    rewrite (fund_player_reverted addr bal h k s' w Hs Hb Hn). reflexivity.
  - intros e s' Hs. simpl. run_code. rewrite Hs. reflexivity.
  - intros bal e s' Hs Hb Hn. apply Z.ltb_lt in Hb, Hn.
    simpl. run_code. rewrite Hs. cbn. rewrite Hb. cbn. rewrite Hn. run_code.
    rewrite <- !app_assoc. reflexivity.
  - intros bal h k e s' Hs Hb Hn. simpl. unfold bind at 1.
    rewrite (fund_player_sent addr bal h _ w Hs Hb Hn).
    unfold bind at 1. rewrite (poll_receipt_error h k e s') by reflexivity.
    cbn. rewrite <- !app_assoc. reflexivity.
  - intros e w1 Hf. unfold handle_restart_game, restart_prefix.
    unfold bind at 1 2 3, get_state. rewrite Hf. reflexivity.
Qed.

(** ** Session transcripts *)

Lemma socket_send_all_firstn cap ms :
  socket_send_all cap ms = (firstn cap ms, length ms <=? cap)%nat.
Proof.
  revert cap. induction ms as [|m ms IH]; intros [|c]; simpl; try reflexivity.
  rewrite IH. reflexivity.
Qed.

Lemma session_transcript_firstn window cap gas contract s relayed :
  session_transcript window cap gas contract s relayed =
  firstn cap (initial_view window gas contract s ++ relayed).
Proof.
  unfold session_transcript. rewrite socket_send_all_firstn.
  set (iv := initial_view window gas contract s).
  rewrite firstn_app.
  destruct (Nat.leb_spec (length iv) cap) as [Hle | Hlt].
  - rewrite firstn_all2 by exact Hle. rewrite socket_send_all_firstn. simpl.
    reflexivity.
  - replace (cap - length iv)%nat with O by lia. simpl. rewrite app_nil_r.
    reflexivity.
Qed.

Lemma window_status_in_window s start_block end_block :
  game_start_block s = Some start_block -> game_end_block s = Some end_block ->
  current_block_height s <= end_block ->
  window_status_ws s = [GameStarted start_block end_block] /\
  window_status_axum s = [GameStarted start_block end_block].
Proof.
  intros Hs He Hh. unfold window_status_ws, window_status_axum.
  rewrite Hs, He. split.
  - destruct (Z.ltb_spec end_block (current_block_height s)); [lia | reflexivity].
  - destruct (Z.leb_spec (current_block_height s) end_block); [reflexivity | lia].
Qed.

Lemma window_status_after_window s start_block end_block :
  game_start_block s = Some start_block -> game_end_block s = Some end_block ->
  end_block < current_block_height s ->
  window_status_ws s = [GameEnded] /\ window_status_axum s = [].
Proof.
  intros Hs He Hh. unfold window_status_ws, window_status_axum.
  rewrite Hs, He. split.
  - destruct (Z.ltb_spec end_block (current_block_height s)); [reflexivity | lia].
  - destruct (Z.leb_spec (current_block_height s) end_block); [lia | reflexivity].
Qed.

(** [C8], as the code has it.  On a socket accepting [cap] messages, both
    connection handlers write a prefix of the initial view (connection
    info, current price, current block height, the game window status,
    the name registry, the position snapshot, in this order) followed by
    the relayed messages: nothing relayed comes before the end of the
    initial view.  The game window status is [GameStarted] in both
    handlers while the height is at most the end block; after it, the
    [ws.rs] handler sends [GameEnded] and the [ws_axum.rs] handler sends
    no window status; with no window neither sends one.  With window
    [1000, 2000] at height 1500 both sessions' fourth message is
    [GameStarted{1000,2000}]. *)
Theorem session_initial_view_first :
  (forall cap gas contract s relayed,
     handle_connection_transcript cap gas contract s relayed =
       firstn cap (initial_view window_status_ws gas contract s ++ relayed) /\
     handle_axum_connection_transcript cap gas contract s relayed =
       firstn cap (initial_view window_status_axum gas contract s ++ relayed)) /\
  (forall s start_block end_block,
     game_start_block s = Some start_block -> game_end_block s = Some end_block ->
     (current_block_height s <= end_block ->
        window_status_ws s = [GameStarted start_block end_block] /\
        window_status_axum s = [GameStarted start_block end_block]) /\
     (end_block < current_block_height s ->
        window_status_ws s = [GameEnded] /\ window_status_axum s = [])) /\
  (forall s, game_start_block s = None \/ game_end_block s = None ->
     window_status_ws s = [] /\ window_status_axum s = []) /\
  (forall cap gas contract s relayed,
     game_start_block s = Some 1000 -> game_end_block s = Some 2000 ->
     current_block_height s = 1500 -> (4 <= cap)%nat ->
     firstn 4 (handle_connection_transcript cap gas contract s relayed) =
       [ConnectionInfo contract gas; CurrentPrice (current_price s);
        CurrentBlockHeight 1500; GameStarted 1000 2000] /\
     firstn 4 (handle_axum_connection_transcript cap gas contract s relayed) =
       [ConnectionInfo contract gas; CurrentPrice (current_price s);
        CurrentBlockHeight 1500; GameStarted 1000 2000]).
Proof.
  split; [|split; [|split]].
  - intros. split; apply session_transcript_firstn.
  - intros s a b Ha Hb. split; intros Hh.
    + exact (window_status_in_window s a b Ha Hb Hh).
    + exact (window_status_after_window s a b Ha Hb Hh).
  - intros s [H | H]; unfold window_status_ws, window_status_axum; rewrite H;
      [split; reflexivity |].
    destruct (game_start_block s); split; reflexivity.
  - intros cap gas contract s relayed Ha Hb Hh Hc.
    destruct (window_status_in_window s 1000 2000 Ha Hb) as [Hw Hx]; [lia |].
    unfold handle_connection_transcript, handle_axum_connection_transcript.
    rewrite !session_transcript_firstn, !firstn_firstn, Nat.min_l by exact Hc.
    unfold initial_view. rewrite Hw, Hx, Hh. split; reflexivity.
Qed.

(** [C8], counterexample: with window [1000, 2000] at height 2500, a
    session of the [ws_axum.rs] handler gets no game window status at
    all, while the [ws.rs] handler sends [GameEnded]. *)
Lemma axum_session_no_window_status :
  forallb (fun m => negb (is_window_status m))
    (handle_axum_connection_transcript 100 sample_gas 9
       (window_state 1000 2000 2500) []) = true /\
  handle_connection_transcript 100 sample_gas 9 (window_state 1000 2000 2500) [] =
    [ConnectionInfo 9 sample_gas; CurrentPrice 50; CurrentBlockHeight 2500; GameEnded].
Proof. split; vm_compute; reflexivity. Qed.

(** ** Counterexamples *)


(** [C6], counterexample: with players 1 and 2, the balance query for the
    first address of the loop (2) fails; the saga ends with that error and
    address 1 is never queried. *)
Lemma restart_balance_error_stops_loop :
  handle_restart_game
    (world0 two_players [RBalance (RErr "connection reset")]) =
  Fail "connection reset"
    (mkWorld two_players []
       [EvGetBalance 2 (RErr "connection reset")] 7).
Proof. vm_compute. reflexivity. Qed.

(** ** Instances of the theorems on concrete inputs *)

Lemma dedup_idempotent_witness :
  (log_key price_log ∉ seen_logs (st (world0 (initial_state 5) []))) /\
  exists w', process_chain_events [price_log; price_log] (world0 (initial_state 5) []) =
               Done tt w' /\ current_price (st w') = 55 /\
             trace w' = [EvChainBroadcast (CPriceUpdate 50 55 100)].
Proof.
  assert (H : log_key price_log ∉ seen_logs (st (world0 (initial_state 5) [])))
    by (cbn; set_solver).
  split; [exact H |].
  exact (proj2 dedup_idempotent (world0 (initial_state 5) []) H).
Defined.

Lemma missing_ids_collide_witness :
  missing_both (mkLog None None [PriceUpdate_SIG] [50; 55; 100]) /\
  process_chain_events
    [mkLog None None [PriceUpdate_SIG] [50; 55; 100];
     mkLog None None [PriceUpdate_SIG] [55; 60; 101]] (world0 (initial_state 5) []) =
  process_chain_events
    (mkLog None None [PriceUpdate_SIG] [50; 55; 100] ::
     filter (fun x => ~ missing_both x) [mkLog None None [PriceUpdate_SIG] [55; 60; 101]])
    (world0 (initial_state 5) []).
Proof.
  assert (H : missing_both (mkLog None None [PriceUpdate_SIG] [50; 55; 100]))
    by (split; reflexivity).
  split; [exact H |].
  exact (proj2 (missing_ids_collide [] [mkLog None None [PriceUpdate_SIG] [55; 60; 101]]
                  _ (world0 (initial_state 5) []) H)).
Defined.

Lemma resync_takes_max_witness :
  classify_tick_error "Failed to process tick: nonce too low" = OtherFailure /\
  tick_recover "Failed to process tick: nonce too low"
    (world0 (initial_state 5) [RTxCount (ROk 9)]) =
  Done tt (mkWorld (set_backend_nonce 9 (initial_state 5)) []
             [EvGetTxCount 7 (ROk 9)] 7).
Proof.
  split; [reflexivity |].
  exact (resync_takes_max "Failed to process tick: nonce too low" 9 []
           (world0 (initial_state 5) [RTxCount (ROk 9)]) eq_refl eq_refl).
Defined.

Lemma resync_skips_twenty_witness :
  classify_tick_error "Failed to process tick: replacement has higher priority" =
    HigherPriority /\
  tick_recover "Failed to process tick: replacement has higher priority"
    (world0 (initial_state 5) []) =
  Done tt (world0 (set_backend_nonce 25 (initial_state 5)) []).
Proof.
  split; [reflexivity |].
  exact (resync_skips_twenty "Failed to process tick: replacement has higher priority"
           (world0 (initial_state 5) []) eq_refl).
Defined.

Lemma get_nonce_enqueues_fund_witness :
  parse_address "0x00000000000000000000000000000000000000aB" = Some 171 /\
  handle_client_message 3%nat (GetNonce "0x00000000000000000000000000000000000000aB")
    (world0 (initial_state 5) [RTxCount (ROk 4)]) =
  Done tt (mkWorld (initial_state 5) []
             [EvGetTxCount 171 (ROk 4); EvClientSend 3%nat (NonceResponse 171 4);
              EvEnqueue (Fund 171 3%nat)] 7).
Proof.
  split; [reflexivity |].
  exact (get_nonce_enqueues_fund 3%nat "0x00000000000000000000000000000000000000aB" 171 4 []
           (world0 (initial_state 5) [RTxCount (ROk 4)]) eq_refl eq_refl).
Defined.

Lemma reset_revert_aborts_witness :
  restart_prefix reset_revert_world = Done 11 (res_world (restart_prefix reset_revert_world)) /\
  poll_receipt 11 (res_world (restart_prefix reset_revert_world)) =
    Done false (res_world (poll_receipt 11 (res_world (restart_prefix reset_revert_world)))) /\
  handle_restart_game reset_revert_world =
    Fail "Reset transaction failed"
      (res_world (poll_receipt 11 (res_world (restart_prefix reset_revert_world)))).
Proof.
  assert (E1 : restart_prefix reset_revert_world =
               Done 11 (res_world (restart_prefix reset_revert_world)))
    by (vm_compute; reflexivity).
  assert (E2 : poll_receipt 11 (res_world (restart_prefix reset_revert_world)) =
               Done false (res_world (poll_receipt 11
                                        (res_world (restart_prefix reset_revert_world)))))
    by (vm_compute; reflexivity).
  split; [exact E1 | split; [exact E2 |]].
  exact (proj1 (reset_revert_aborts _ _ _ _ E1 E2)).
Defined.


Lemma fund_loop_outcomes_witness :
  fund_players [2; 1]
    (world0 two_players [RBalance (ROk 0); RSend (ROk 12); RReceipt (ROk None);
                         RReceipt (ROk (Some false))]) =
  fund_players [1]
    (mkWorld (set_backend_nonce 6 two_players) []
       [EvGetBalance 2 (ROk 0); EvSendTx (funding_tx 2 0 5) (ROk 12);
        EvGetReceipt 12 (ROk None); EvSleep; EvGetReceipt 12 (ROk (Some false))] 7).
Proof.
  assert (Hb : 0 < MIN_BALANCE) by (unfold MIN_BALANCE; lia).
  assert (Hn : 5 + 1 < U64_LIMIT) by (unfold U64_LIMIT; lia).
  exact (proj1 (fund_loop_outcomes 2 [1]
                  (world0 two_players [RBalance (ROk 0); RSend (ROk 12); RReceipt (ROk None);
                                       RReceipt (ROk (Some false))]))
           0 12 1%nat [] eq_refl Hb Hn).
Defined.

Lemma session_initial_view_first_witness :
  firstn 4 (handle_connection_transcript 10 sample_gas 9 (window_state 1000 2000 1500)
              [PriceUpdate 50 55]) =
    [ConnectionInfo 9 sample_gas; CurrentPrice 50; CurrentBlockHeight 1500;
     GameStarted 1000 2000] /\
  firstn 4 (handle_axum_connection_transcript 10 sample_gas 9 (window_state 1000 2000 1500)
              [PriceUpdate 50 55]) =
    [ConnectionInfo 9 sample_gas; CurrentPrice 50; CurrentBlockHeight 1500;
     GameStarted 1000 2000].
Proof.
  assert (Hc : (4 <= 10)%nat) by lia.
  exact (proj2 (proj2 (proj2 session_initial_view_first)) 10%nat sample_gas 9
           (window_state 1000 2000 1500) [PriceUpdate 50 55]
           eq_refl eq_refl eq_refl Hc).
Defined.

(** * Further properties of the code *)

(** ** The executor absorbs every error *)

(** A computation that never returns an error with [?] (it may still
    panic or wait). *)
Definition no_fail {A} (m : M A) : Prop := forall w e w', m w <> Fail e w'.

Create HintDb no_fail.

Lemma no_fail_bind {A B} (m : M A) (k : A -> M B) :
  no_fail m -> (forall a, no_fail (k a)) -> no_fail (bind m k).
Proof.
  intros Hm Hk w e w'. unfold bind.
  destruct (m w) as [a w1|e1 w1|w1|w1] eqn:E; try discriminate.
  - apply Hk.
  - exfalso. exact (Hm w e1 w1 E).
Qed.

Lemma no_fail_attempt {A} (m : M A) : no_fail (attempt m).
Proof. intros w e w'. unfold attempt. destruct (m w); discriminate. Qed.

Lemma no_fail_ret {A} (a : A) : no_fail (ret a).
Proof. intros w e w'. discriminate. Qed.

Lemma no_fail_emit e : no_fail (emit e).
Proof. intros w e' w'. discriminate. Qed.

Lemma no_fail_hang {A} : no_fail (@hang A).
Proof. intros w e w'. discriminate. Qed.

Lemma no_fail_get_state : no_fail get_state.
Proof. intros w e w'. discriminate. Qed.

Lemma no_fail_put_state s : no_fail (put_state s).
Proof. intros w e w'. discriminate. Qed.

Lemma no_fail_signer : no_fail default_signer_address.
Proof. intros w e w'. discriminate. Qed.

Lemma no_fail_add_u64 a b : no_fail (add_u64 a b).
Proof. intros w e w'. unfold add_u64. destruct (_ <? _); discriminate. Qed.

Lemma no_fail_next_resp : no_fail next_resp.
Proof. intros w e w'. unfold next_resp. destruct (script w); discriminate. Qed.

Lemma no_fail_get_transaction_count a : no_fail (get_transaction_count a).
Proof.
  unfold get_transaction_count. apply no_fail_bind; [apply no_fail_next_resp|].
  intros [[]|]; try apply no_fail_hang.
  apply no_fail_bind; [apply no_fail_emit | intros; apply no_fail_ret].
Qed.

Global Hint Resolve no_fail_attempt no_fail_ret no_fail_emit no_fail_hang
  no_fail_get_state no_fail_put_state no_fail_signer no_fail_add_u64
  no_fail_get_transaction_count : no_fail.

Ltac no_fail_step :=
  cbv beta zeta;
  match goal with
  | |- no_fail (if ?b then _ else _) => destruct b
  | |- no_fail (match ?x with _ => _ end) => destruct x
  | |- no_fail (bind _ _) => apply no_fail_bind; [ | intros ?]
  | |- no_fail (broadcast _) => apply no_fail_emit
  | |- no_fail (client_send _ _) => apply no_fail_emit
  | |- no_fail _ => solve [auto with no_fail]
  end.

Lemma tick_recover_no_fail msg : no_fail (tick_recover msg).
Proof. unfold tick_recover. repeat no_fail_step. Qed.

Lemma handle_backend_event_no_fail ev : no_fail (handle_backend_event ev).
Proof.
  destruct ev; simpl; repeat no_fail_step. apply tick_recover_no_fail.
Qed.

(** [backend_tx_executor] never ends with an error: a failed [Fund] is
    reported to the caller as [FundError], a failed [Tick] is handled by
    the nonce recovery, and the loop goes on with the next command; only
    a u64 overflow or a ledger answer that never comes stops it. *)
Theorem backend_tx_executor_never_fails (evs : list BackendTxEvent) (w w' : World)
    (e : string) :
  backend_tx_executor evs w <> Fail e w'.
Proof.
  revert w. induction evs as [|ev evs IH]; intros w; simpl.
  - discriminate.
  - unfold bind. pose proof (handle_backend_event_no_fail ev w) as H.
    destruct (handle_backend_event ev w) as [a w1|e1 w1|w1|w1]; try discriminate.
    + apply IH.
    + exfalso. exact (H e1 w1 eq_refl).
Qed.

(** ** Funding an empty account *)

Ltac run_backend :=
  cbv [handle_backend_event handle_fund_event attempt bind get_balance
       send_transaction get_transaction_receipt next_resp of_result raise ret
       emit record with_script with_state reserve_nonce get_state put_state
       add_u64 to_u64 poll_receipt client_send];
  cbn.

Ltac run_backend_sent :=
  cbv [handle_backend_event handle_fund_event attempt bind get_balance
       send_transaction next_resp of_result raise ret emit record with_script
       with_state reserve_nonce get_state put_state add_u64 to_u64 client_send];
  cbn - [poll_receipt].

(** A [Fund] command for an account with a zero balance reserves the next
    nonce and sends a transfer of the full [FUNDING_AMOUNT] (0.5 MON, not
    a shortfall) with that nonce, gas limit 25000 and the fixed gas price,
    then polls for the receipt, sleeping after each poll that finds none;
    once the receipt is in, the caller gets [Funded] with that amount if
    the transfer succeeded, and [FundError] naming the transaction hash if
    it was reverted; a failed poll gives the caller [FundError] with
    "Failed to fund account: " and the error. *)
Theorem fund_empty_account (addr : Address) (c : Chan) (h : TxHash) (k : nat)
    (rest : list Resp) (w : World) :
  backend_nonce (st w) + 1 < U64_LIMIT ->
  (forall status,
     script w = RBalance (ROk 0) :: RSend (ROk h) ::
                repeat (RReceipt (ROk None)) k ++ RReceipt (ROk (Some status)) :: rest ->
     handle_backend_event (Fund addr c) w =
     Done tt (mkWorld (set_backend_nonce (backend_nonce (st w) + 1) (st w)) rest
       (trace w ++
          [EvGetBalance addr (ROk 0);
           EvSendTx (mkTx (CallTransfer addr FUNDING_AMOUNT) (backend_nonce (st w))
                       25000 GAS_PRICE None) (ROk h)] ++
          empty_polls h k ++
          [EvGetReceipt h (ROk (Some status));
           EvClientSend c (if status then Funded addr FUNDING_AMOUNT
                           else FundError addr ("Funding transaction failed: " ++ fmt_hash h))])
       (signer w))) /\
  (forall e,
     script w = RBalance (ROk 0) :: RSend (ROk h) ::
                repeat (RReceipt (ROk None)) k ++ RReceipt (RErr e) :: rest ->
     handle_backend_event (Fund addr c) w =
     Done tt (mkWorld (set_backend_nonce (backend_nonce (st w) + 1) (st w)) rest
       (trace w ++
          [EvGetBalance addr (ROk 0);
           EvSendTx (mkTx (CallTransfer addr FUNDING_AMOUNT) (backend_nonce (st w))
                       25000 GAS_PRICE None) (ROk h)] ++
          empty_polls h k ++
          [EvGetReceipt h (RErr e);
           EvClientSend c (FundError addr ("Failed to fund account: " ++ e))])
       (signer w))).
Proof.
  intros Hn. apply Z.ltb_lt in Hn. split.
  - intros status Hs. run_backend_sent. rewrite Hs. cbn - [poll_receipt].
    rewrite Hn. cbn - [poll_receipt].
    rewrite (poll_receipt_mined h k status rest) by reflexivity.
    assert (HF : (FUNDING_AMOUNT <? U64_LIMIT) = true) by reflexivity.
    destruct status; cbn; [rewrite HF; cbn |]; rewrite <- !app_assoc; reflexivity.
  - intros e Hs. run_backend_sent. rewrite Hs. cbn - [poll_receipt].
    rewrite Hn. cbn - [poll_receipt].
    rewrite (poll_receipt_error h k e rest) by reflexivity.
    cbn. rewrite <- !app_assoc. reflexivity.
Qed.

(** When the transfer to an empty account cannot be sent, the reserved
    nonce stays consumed (the counter is not given back) and the caller
    gets [FundError] with "Failed to fund account: " and the error. *)
Theorem fund_send_error_consumes_nonce (addr : Address) (c : Chan) (e : string)
    (rest : list Resp) (w : World) :
  script w = RBalance (ROk 0) :: RSend (RErr e) :: rest ->
  backend_nonce (st w) + 1 < U64_LIMIT ->
  handle_backend_event (Fund addr c) w =
  Done tt (mkWorld (set_backend_nonce (backend_nonce (st w) + 1) (st w)) rest
    (trace w ++
       [EvGetBalance addr (ROk 0);
        EvSendTx (mkTx (CallTransfer addr FUNDING_AMOUNT) (backend_nonce (st w))
                    25000 GAS_PRICE None) (RErr e);
        EvClientSend c (FundError addr ("Failed to fund account: " ++ e))])
    (signer w)).
Proof.
  intros Hs Hn. apply Z.ltb_lt in Hn. run_backend. rewrite Hs. cbn.
  rewrite Hn. run_backend. rewrite <- !app_assoc. reflexivity.
Qed.

(** ** A [Tick] command, start to end *)

Lemma tick_msg_already e :
  str_contains ("Failed to process tick: " ++ e) "Already ticked this block" =
  str_contains e "Already ticked this block".
Proof. reflexivity. Qed.

Lemma tick_msg_priority e :
  str_contains ("Failed to process tick: " ++ e) "higher priority" =
  str_contains e "higher priority".
Proof. reflexivity. Qed.

(** A [Tick] command always consumes one nonce for the [tick()]
    transaction (gas limit 60000, the fixed fee cap, a 1 gwei priority
    fee).  If sending fails, the error [e] decides the outcome: with
    "Already ticked this block" in it the nonce stays one past the tick's;
    else with "higher priority" in it the nonce ends 21 past the tick's;
    else the ledger's transaction count [C] of the backend's wallet is
    asked, and the nonce ends at the larger of [C] and one past the
    tick's, or one past the tick's when that query fails.  No error
    reaches the executor. *)
Theorem tick_command_outcomes (w : World) (rest : list Resp) :
  let n := backend_nonce (st w) in
  n + 21 < U64_LIMIT ->
  (forall h, script w = RSend (ROk h) :: rest ->
     handle_backend_event Tick w =
     Done tt (mkWorld (set_backend_nonce (n + 1) (st w)) rest
                (trace w ++ [EvSendTx (tick_tx n) (ROk h)]) (signer w))) /\
  (forall e, script w = RSend (RErr e) :: rest ->
     str_contains e "Already ticked this block" = true ->
     handle_backend_event Tick w =
     Done tt (mkWorld (set_backend_nonce (n + 1) (st w)) rest
                (trace w ++ [EvSendTx (tick_tx n) (RErr e)]) (signer w))) /\
  (forall e, script w = RSend (RErr e) :: rest ->
     str_contains e "Already ticked this block" = false ->
     str_contains e "higher priority" = true ->
     handle_backend_event Tick w =
     Done tt (mkWorld (set_backend_nonce (n + 21) (st w)) rest
                (trace w ++ [EvSendTx (tick_tx n) (RErr e)]) (signer w))) /\
  (forall e r rest', script w = RSend (RErr e) :: RTxCount r :: rest' ->
     str_contains e "Already ticked this block" = false ->
     str_contains e "higher priority" = false ->
     handle_backend_event Tick w =
     Done tt (mkWorld
                (set_backend_nonce
                   (match r with ROk C => Z.max (n + 1) C | RErr _ => n + 1 end) (st w))
                rest'
                (trace w ++ [EvSendTx (tick_tx n) (RErr e); EvGetTxCount (signer w) r])
                (signer w))).
Proof.
  intros n Hn.
  assert (H1 : (n + 1 <? U64_LIMIT) = true) by (apply Z.ltb_lt; lia).
  assert (H21 : (n + 1 + 20 <? U64_LIMIT) = true) by (apply Z.ltb_lt; lia).
  split; [|split; [|split]].
  - intros h Hs. cbv [handle_backend_event handle_tick_event]. run_backend.
    subst n. rewrite H1. run_backend. rewrite Hs. run_backend.
    rewrite <- ?app_assoc. reflexivity.
  - intros e Hs Ha. cbv [handle_backend_event handle_tick_event]. run_backend.
    subst n. rewrite H1. run_backend. rewrite Hs. run_backend.
    unfold tick_recover. rewrite tick_msg_already, Ha. run_backend.
    reflexivity.
  - intros e Hs Ha Hp. cbv [handle_backend_event handle_tick_event]. run_backend.
    subst n. rewrite H1. run_backend. rewrite Hs. run_backend.
    unfold tick_recover. rewrite tick_msg_already, Ha, tick_msg_priority, Hp.
    run_backend. rewrite H21. run_backend.
    replace (backend_nonce (st w) + 1 + 20) with (backend_nonce (st w) + 21) by lia.
    reflexivity.
  - intros e r rest' Hs Ha Hp. cbv [handle_backend_event handle_tick_event]. run_backend.
    subst n. rewrite H1. run_backend. rewrite Hs. run_backend.
    unfold tick_recover. rewrite tick_msg_already, Ha, tick_msg_priority, Hp.
    cbv [default_signer_address get_transaction_count]. run_backend.
    destruct r as [C|err]; run_backend; [|rewrite <- ?app_assoc; reflexivity].
    destruct (Z.ltb_spec (backend_nonce (st w) + 1) C) as [Hlt|Hge]; run_backend.
    + rewrite Z.max_r by lia. rewrite <- ?app_assoc. reflexivity.
    + rewrite Z.max_l by lia.
      destruct (C =? backend_nonce (st w) + 1); run_backend;
        rewrite <- ?app_assoc; reflexivity.
Qed.

(** ** The restart saga, Step 1 and Step 4 *)

(** One address of Step 1: at or above [MIN_BALANCE] (0.45 MON) nothing
    is sent; below it, the shortfall [FUNDING_AMOUNT - balance] is sent
    with the next nonce and its receipt awaited (however many polls find
    none); once mined, a successful top-up is announced to every session
    with a broadcast [Funded] carrying the full [FUNDING_AMOUNT], and a
    reverted one is passed over in silence. *)
Theorem fund_player_outcomes (addr : Address) (bal : Z) (w : World) :
  (forall rest, script w = RBalance (ROk bal) :: rest -> MIN_BALANCE <= bal ->
     fund_player addr w =
     Done tt (mkWorld (st w) rest (trace w ++ [EvGetBalance addr (ROk bal)]) (signer w))) /\
  (forall h k status rest,
     script w = RBalance (ROk bal) :: RSend (ROk h) ::
                repeat (RReceipt (ROk None)) k ++ RReceipt (ROk (Some status)) :: rest ->
     bal < MIN_BALANCE -> backend_nonce (st w) + 1 < U64_LIMIT ->
     fund_player addr w =
     Done tt (mkWorld (set_backend_nonce (backend_nonce (st w) + 1) (st w)) rest
       (trace w ++ [EvGetBalance addr (ROk bal);
                    EvSendTx (funding_tx addr bal (backend_nonce (st w))) (ROk h)] ++
                   empty_polls h k ++ [EvGetReceipt h (ROk (Some status))] ++
                   (if status then [EvBroadcast (Funded addr FUNDING_AMOUNT)] else []))
       (signer w))).
Proof.
  split.
  - intros rest Hs Hb. run_code. rewrite Hs. cbn.
    destruct (Z.ltb_spec bal MIN_BALANCE); [lia|]. reflexivity.
  - intros h k status rest Hs Hb Hn.
    rewrite (fund_player_sent addr bal h _ w Hs Hb Hn).
    unfold bind at 1. rewrite (poll_receipt_mined h k status rest) by reflexivity.
    assert (HF : (FUNDING_AMOUNT <? U64_LIMIT) = true) by reflexivity.
    destruct status; cbv [to_u64 broadcast bind emit ret record]; [rewrite HF|]; cbn;
      rewrite <- ?app_assoc, ?app_nil_r; reflexivity.
Qed.

(** Once the [reset] transaction is confirmed, the saga sends
    [start(50)] with the next nonce (gas limit 500000, the fixed fee cap, a
    1 gwei priority fee) and waits for it, however many polls find no
    receipt: it ends with success when the [start] receipt reports success,
    and with the error "Start transaction failed" when it reports a
    revert; a failed poll ends it with that error. *)
Theorem restart_after_reset (w w1 w2 : World) (h h' : TxHash) (k : nat)
    (rest : list Resp) :
  restart_prefix w = Done h w1 ->
  poll_receipt h w1 = Done true w2 ->
  backend_nonce (st w2) + 1 < U64_LIMIT ->
  (forall ok,
     script w2 = RSend (ROk h') :: repeat (RReceipt (ROk None)) k ++
                 RReceipt (ROk (Some ok)) :: rest ->
     handle_restart_game w =
     (if ok then Done tt else Fail "Start transaction failed")
       (mkWorld (set_backend_nonce (backend_nonce (st w2) + 1) (st w2)) rest
          (trace w2 ++
             [EvSendTx (mkTx (CallStart GAME_DURATION) (backend_nonce (st w2)) 500000
                         GAS_PRICE (Some PRIORITY_FEE)) (ROk h')] ++
             empty_polls h' k ++ [EvGetReceipt h' (ROk (Some ok))]) (signer w2))) /\
  (forall e,
     script w2 = RSend (ROk h') :: repeat (RReceipt (ROk None)) k ++
                 RReceipt (RErr e) :: rest ->
     handle_restart_game w =
     Fail e
       (mkWorld (set_backend_nonce (backend_nonce (st w2) + 1) (st w2)) rest
          (trace w2 ++
             [EvSendTx (mkTx (CallStart GAME_DURATION) (backend_nonce (st w2)) 500000
                         GAS_PRICE (Some PRIORITY_FEE)) (ROk h')] ++
             empty_polls h' k ++ [EvGetReceipt h' (RErr e)]) (signer w2))).
Proof.
  intros E1 E2 Hn. apply Z.ltb_lt in Hn.
  assert (Hstart : handle_restart_game w = restart_start w2).
  { unfold handle_restart_game. unfold bind at 1. rewrite E1.
    unfold bind at 1. rewrite E2. reflexivity. }
  rewrite Hstart. clear Hstart.
  split; [intros ok Hs | intros e Hs];
    cbv [restart_start bind send_transaction next_resp of_result raise ret emit
         record with_script with_state reserve_nonce get_state put_state add_u64];
    rewrite Hn; cbn - [poll_receipt]; rewrite Hs; cbn - [poll_receipt].
  - rewrite (poll_receipt_mined h' k ok rest) by reflexivity.
    destruct ok; cbn; rewrite <- ?app_assoc; reflexivity.
  - rewrite (poll_receipt_error h' k e rest) by reflexivity.
    cbn. rewrite <- ?app_assoc. reflexivity.
Qed.

(** ** Projection of the event stream *)

Ltac run_chain :=
  cbv [process_log project_log project_trade bind get_state put_state ret
       to_u64 chain_broadcast emit record with_state];
  cbn.

Lemma process_log_fresh l w :
  log_key l ∉ seen_logs (st w) ->
  process_log l w =
  project_log l (with_state (set_seen_logs ({[log_key l]} ∪ seen_logs (st w)) (st w)) w).
Proof.
  intros H. unfold process_log, bind at 1, get_state.
  destruct (decide _); [contradiction | reflexivity].
Qed.


(** A [PriceUpdate] log seen for the first time, whose words fit in a
    u64, sets [current_price] to the new price and broadcasts the old
    price, the new price and the block number; nothing else changes. *)
Theorem price_log_projection (l : Log) (old new_price block : Z) (w : World) :
  log_key l ∉ seen_logs (st w) ->
  topic0 l = Some PriceUpdate_SIG ->
  decode_price_update l = Some (old, new_price, block) ->
  forallb (fun x => x <? U64_LIMIT) [new_price; old; block] = true ->
  process_log l w =
  Done tt (mkWorld
    (set_current_price new_price
       (set_seen_logs ({[log_key l]} ∪ seen_logs (st w)) (st w)))
    (script w)
    (trace w ++ [EvChainBroadcast (CPriceUpdate old new_price block)])
    (signer w)).
Proof.
  intros Hk Ht Hd Hf. simpl in Hf.
  apply andb_prop in Hf as [H1 Hf]. apply andb_prop in Hf as [H2 Hf].
  apply andb_prop in Hf as [H3 _].
  rewrite process_log_fresh by exact Hk. unfold project_log.
  rewrite Ht. cbn. rewrite Hd. run_chain. rewrite H1. run_chain.
  rewrite H2, H3. run_chain. reflexivity.
Qed.

(** A [PriceUpdate] log seen for the first time whose new price does not
    fit in a u64 makes [.to::<u64>()] panic: the chain task dies with the
    log's key already recorded, the price unchanged and nothing
    broadcast. *)
Theorem price_log_overflow_panics (l : Log) (old new_price block : Z) (w : World) :
  log_key l ∉ seen_logs (st w) ->
  topic0 l = Some PriceUpdate_SIG ->
  decode_price_update l = Some (old, new_price, block) ->
  U64_LIMIT <= new_price ->
  process_log l w =
  Panic (with_state (set_seen_logs ({[log_key l]} ∪ seen_logs (st w)) (st w)) w).
Proof.
  intros Hk Ht Hd Hf.
  rewrite process_log_fresh by exact Hk. unfold project_log.
  rewrite Ht. cbn. rewrite Hd. cbv [bind to_u64].
  destruct (Z.ltb_spec new_price U64_LIMIT); [lia | reflexivity].
Qed.

Lemma project_log_inert l w :
  topic0 l = None \/
  (exists t, topic0 l = Some t /\ t <> PriceUpdate_SIG /\ t <> Bought_SIG /\ t <> Sold_SIG) \/
  (topic0 l = Some PriceUpdate_SIG /\ decode_price_update l = None) \/
  ((topic0 l = Some Bought_SIG \/ topic0 l = Some Sold_SIG) /\ decode_trade l = None) ->
  project_log l w = Done tt w.
Proof.
  unfold project_log.
  intros [Ht | [[t [Ht [H1 [H2 H3]]]] | [[Ht Hd] | [[Ht | Ht] Hd]]]]; rewrite Ht.
  - reflexivity.
  - apply Z.eqb_neq in H1, H2, H3. rewrite H1, H2, H3.
    destruct (t =? NewUser_SIG), (decode_new_user l); reflexivity.
  - cbn. rewrite Hd. reflexivity.
  - cbn. rewrite Hd. reflexivity.
  - cbn. rewrite Hd. reflexivity.
Qed.

(** A log seen for the first time that the pipeline does not project
    (no topic, a [NewUser] or unknown event, or a [PriceUpdate], [Bought]
    or [Sold] that fails to decode) changes nothing but [seen_logs] and
    broadcasts nothing; since its key is recorded before decoding, every
    later log with the same key is then dropped, even a well-formed one. *)
Theorem unprojected_log_consumes_key (l : Log) (rest : list Log) (w : World) :
  log_key l ∉ seen_logs (st w) ->
  topic0 l = None \/
  (exists t, topic0 l = Some t /\ t <> PriceUpdate_SIG /\ t <> Bought_SIG /\ t <> Sold_SIG) \/
  (topic0 l = Some PriceUpdate_SIG /\ decode_price_update l = None) \/
  ((topic0 l = Some Bought_SIG \/ topic0 l = Some Sold_SIG) /\ decode_trade l = None) ->
  process_chain_events (l :: rest) w =
  process_chain_events (filter (fun x => log_key x ≠ log_key l) rest)
    (with_state (set_seen_logs ({[log_key l]} ∪ seen_logs (st w)) (st w)) w).
Proof.
  intros Hk Hl. rewrite process_chain_events_cons_seen. unfold bind at 1.
  rewrite process_log_fresh by exact Hk. rewrite project_log_inert by exact Hl.
  reflexivity.
Qed.

(** ** Inbound session messages *)

Ltac run_session :=
  cbv [handle_client_message handle_get_nonce bind get_state put_state ret emit
       record with_state with_script broadcast client_send get_transaction_count
       send_raw_transaction next_resp];
  cbn.

(** [SetName] with an address that parses inserts the name into the
    registry (replacing an earlier name of that address, the other entries
    untouched) and broadcasts [NameSet]; every session opened afterwards
    gets that [NameSet] in its initial view, from either handler. *)
Theorem set_name_registers (c : Chan) (name address : string) (addr : Address)
    (w : World) :
  parse_address address = Some addr ->
  handle_client_message c (SetName name address) w =
  Done tt (mkWorld (set_name addr name (st w)) (script w)
             (trace w ++ [EvBroadcast (NameSet addr name)]) (signer w)) /\
  (forall a, names (set_name addr name (st w)) !! a =
             if decide (a = addr) then Some name else names (st w) !! a) /\
  (forall window gas contract,
     NameSet addr name ∈ initial_view window gas contract (set_name addr name (st w))).
Proof.
  intros Hp. split; [|split].
  - run_session. rewrite Hp. reflexivity.
  - intros a. simpl. rewrite lookup_insert.
    destruct (decide (addr = a)), (decide (a = addr)); congruence.
  - intros window gas contract. unfold initial_view.
    apply elem_of_app. right. apply elem_of_app. right. apply elem_of_app. right.
    apply elem_of_app. right. apply elem_of_app. left.
    unfold name_messages. apply list_elem_of_fmap.
    exists (addr, name). split; [reflexivity|].
    apply elem_of_map_to_list. simpl. rewrite lookup_insert.
    destruct (decide (addr = addr)); congruence.
Qed.

(** A [SetName] or [GetNonce] whose address does not parse is ignored:
    no state change, no ledger call, no message to anyone. *)
Theorem bad_address_ignored (c : Chan) (name address : string) (w : World) :
  parse_address address = None ->
  handle_client_message c (SetName name address) w = Done tt w /\
  handle_client_message c (GetNonce address) w = Done tt w.
Proof. intros Hp. split; run_session; rewrite Hp; reflexivity. Qed.

(** When the transaction count query of [GetNonce] fails, the session
    gets [TxError] with "Failed to get nonce: " and the error, and no
    [Fund] command is queued. *)
Theorem get_nonce_query_error (c : Chan) (address : string) (addr : Address)
    (e : string) (rest : list Resp) (w : World) :
  parse_address address = Some addr ->
  script w = RTxCount (RErr e) :: rest ->
  handle_client_message c (GetNonce address) w =
  Done tt (mkWorld (st w) rest
             (trace w ++ [EvGetTxCount addr (RErr e);
                          EvClientSend c (TxError ("Failed to get nonce: " ++ e))])
             (signer w)).
Proof.
  intros Hp Hs. run_session. rewrite Hp. cbn. rewrite Hs. cbn.
  rewrite <- ?app_assoc. reflexivity.
Qed.

Lemma string_get_length (s : string) : String.get (String.length s) s = None.
Proof. induction s; simpl; auto. Qed.

(** [RawTx]: when byte 20 of the string falls inside a UTF-8 character,
    the log line's slice [&raw_tx[..20]] panics and the session task ends,
    before any parsing (a string of at most 20 bytes never does this);
    otherwise a string that is not hexadecimal bytes gets a [TxError] with
    "Failed to parse transaction: " and the parser's error, and reaches no
    ledger; a string that parses is relayed as it is to
    [send_raw_transaction] and the session gets [TxSubmitted] with the
    hash, or [TxError] with "Failed to submit transaction: " and the
    error.  The server's state never changes. *)
Theorem raw_tx_outcomes (c : Chan) (raw_tx : string) (w : World) :
  (Nat.le (String.length raw_tx) 20 ->
   is_char_boundary raw_tx (Nat.min 20 (String.length raw_tx)) = true) /\
  (is_char_boundary raw_tx (Nat.min 20 (String.length raw_tx)) = false ->
   handle_client_message c (RawTx raw_tx) w = Panic w) /\
  (forall e, is_char_boundary raw_tx (Nat.min 20 (String.length raw_tx)) = true ->
   parse_bytes raw_tx = RErr e ->
   handle_client_message c (RawTx raw_tx) w =
   Done tt (record (EvClientSend c (TxError ("Failed to parse transaction: " ++ e))) w)) /\
  (forall u r rest, is_char_boundary raw_tx (Nat.min 20 (String.length raw_tx)) = true ->
   parse_bytes raw_tx = ROk u -> script w = RSend r :: rest ->
   handle_client_message c (RawTx raw_tx) w =
   Done tt (mkWorld (st w) rest
     (trace w ++ [EvSendRaw raw_tx r;
                  EvClientSend c (match r with
                                  | ROk h => TxSubmitted h
                                  | RErr e => TxError ("Failed to submit transaction: " ++ e)
                                  end)]) (signer w))).
Proof.
  split; [|split; [|split]].
  - intros Hl. rewrite Nat.min_r by exact Hl. unfold is_char_boundary.
    rewrite string_get_length. apply Nat.eqb_refl.
  - intros Hb. cbv [handle_client_message]. rewrite Hb. reflexivity.
  - intros e Hb Hp. cbv [handle_client_message]. rewrite Hb, Hp. run_session. reflexivity.
  - intros u r rest Hb Hp Hs. cbv [handle_client_message]. rewrite Hb, Hp.
    run_session. rewrite Hs. cbn. destruct r; cbn; rewrite <- ?app_assoc; reflexivity.
Qed.

(** ** The snapshot of a new session *)

Lemma window_status_only window :
  (window = window_status_ws \/ window = window_status_axum) ->
  forall s m, m ∈ window s -> is_window_status m = true.
Proof.
  intros [-> | ->] s m Hm;
    unfold window_status_ws, window_status_axum in Hm;
    destruct (game_start_block s), (game_end_block s); try (apply list_elem_of_In in Hm; contradiction);
    repeat case_match; apply list_elem_of_In in Hm; simpl in Hm;
    intuition (subst; reflexivity).
Qed.

Lemma initial_view_elem window gas contract s m :
  m ∈ initial_view window gas contract s <->
  m = ConnectionInfo contract gas \/ m = CurrentPrice (current_price s) \/
  m = CurrentBlockHeight (current_block_height s) \/ m ∈ window s \/
  m ∈ name_messages s \/ m ∈ position_messages s.
Proof.
  unfold initial_view. rewrite !elem_of_app, !list_elem_of_singleton. tauto.
Qed.

(** The snapshot a session of either handler gets on connect lists
    exactly the name registry (one [NameSet] per registered address) and
    exactly the recorded balances (one [Position] per address with a
    balance, its holdings defaulting to 0 when none are recorded, block
    number 0). *)
Theorem initial_view_snapshot (window : AppState -> list ServerMessage)
    (gas : GasCosts) (contract : Address) (s : AppState) :
  (window = window_status_ws \/ window = window_status_axum) ->
  (forall a n, NameSet a n ∈ initial_view window gas contract s <->
               names s !! a = Some n) /\
  (forall a b h bn, Position a b h bn ∈ initial_view window gas contract s <->
                    balances s !! a = Some b /\ h = default 0 (holdings s !! a) /\ bn = 0).
Proof.
  intros Hw. pose proof (window_status_only window Hw s) as Hws.
  unfold name_messages, position_messages. split.
  - intros a n. rewrite initial_view_elem. split.
    + intros [H|[H|[H|[H|[H|H]]]]]; try discriminate.
      * apply Hws in H. discriminate.
      * apply list_elem_of_fmap in H as [[a' n'] [E Hin]]. injection E as -> ->.
        apply elem_of_map_to_list in Hin. exact Hin.
      * apply list_elem_of_fmap in H as [[a' b'] [E Hin]]. discriminate.
    + intros H. right; right; right; right; left.
      apply list_elem_of_fmap. exists (a, n). split; [reflexivity|].
      apply elem_of_map_to_list. exact H.
  - intros a b h bn. rewrite initial_view_elem. split.
    + intros [H|[H|[H|[H|[H|H]]]]]; try discriminate.
      * apply Hws in H. discriminate.
      * apply list_elem_of_fmap in H as [[a' n'] [E Hin]]. discriminate.
      * apply list_elem_of_fmap in H as [[a' b'] [E Hin]]. injection E as -> -> -> ->.
        apply elem_of_map_to_list in Hin. auto.
    + intros [H [-> ->]]. right; right; right; right; right.
      apply list_elem_of_fmap. exists (a, b). split; [reflexivity|].
      apply elem_of_map_to_list. exact H.
Qed.

(** ** What a session never does *)

(** Of the inbound messages, only [SetName] writes the server's state:
    [RawTx], [GetNonce] and [RestartGame] (which only spawns the saga)
    leave it as it was, whatever the ledger answers. *)
Theorem session_messages_keep_state (c : Chan) (m : ClientMessage) (w : World) :
  (forall name address, m <> SetName name address) ->
  st (res_world (handle_client_message c m w)) = st w.
Proof.
  intros Hm. revert w. change (keeps (handle_client_message c m)).
  destruct m as [name address|raw_tx|address|]; simpl.
  - exfalso. exact (Hm name address eq_refl).
  - destruct (negb _); [auto with keeps|].
    destruct (parse_bytes raw_tx); [|auto with keeps].
    apply keeps_bind; [auto with keeps | intros [h|e]; auto with keeps].
  - unfold handle_get_nonce. case_match; [|auto with keeps].
    apply keeps_bind; [auto with keeps | intros [n|e]];
      repeat (apply keeps_bind; [auto with keeps | intros ?]); auto with keeps.
  - auto with keeps.
Qed.

(** ** The already-funded reply *)

(** For an account that already holds a balance, once both contract reads
    succeed, and when the ledger balance, the contract balance and the
    holdings are all below [2^64] (the range of the [to::<u64>()]
    conversions), the caller gets [Funded] with the ledger balance, and
    every session is sent the account's [Position] (contract balance,
    holdings, block number 0) only when both the contract balance and the
    holdings are positive. *)
Theorem fund_already_funded_position (addr : Address) (c : Chan) (bal hd cb : Z)
    (rest : list Resp) (w : World) :
  script w = RBalance (ROk bal) :: RView (ROk hd) :: RView (ROk cb) :: rest ->
  0 < bal < U64_LIMIT -> hd < U64_LIMIT -> cb < U64_LIMIT ->
  handle_backend_event (Fund addr c) w =
  Done tt (mkWorld (st w) rest
    (trace w ++
       [EvGetBalance addr (ROk bal); EvView GetHoldings addr (ROk hd);
        EvView GetBalance addr (ROk cb); EvClientSend c (Funded addr bal)] ++
       (if (0 <? cb) && (0 <? hd) then [EvBroadcast (Position addr cb hd 0)] else []))
    (signer w)).
Proof.
  intros Hs [Hb0 Hb] Hh Hc.
  apply Z.ltb_lt in Hb0, Hb, Hh, Hc.
  run_backend. rewrite Hs. cbn. rewrite Hb0.
  cbv [report_funded view_call]. run_backend. rewrite Hb. run_backend.
  rewrite Hc, Hh. run_backend.
  destruct ((0 <? cb) && (0 <? hd)); cbv [broadcast emit record]; cbn;
    rewrite <- ?app_assoc; reflexivity.
Qed.

(** ** Keys of a completed stream *)

(** When the pipeline has gone through a whole stream, the key of every
    log of the stream is in [seen_logs], whether the log was projected,
    undecodable or a duplicate: replaying any of those logs afterwards is
    a no-op. *)
Theorem stream_keys_seen (ls : list Log) (w w' : World) :
  process_chain_events ls w = Done tt w' ->
  Forall (fun l => log_key l ∈ seen_logs (st w')) ls /\
  (forall l, l ∈ ls -> process_log l w' = Done tt w').
Proof.
  assert (Hf : process_chain_events ls w = Done tt w' ->
               Forall (fun l => log_key l ∈ seen_logs (st w')) ls).
  { revert w. induction ls as [|l ls IH]; intros w H; [constructor|].
    simpl in H. unfold bind at 1 in H.
    pose proof (process_log_key_seen l w) as Hk.
    destruct (process_log l w) as [[] w1| | |] eqn:E; try discriminate.
    simpl in Hk. constructor; [|exact (IH w1 H)].
    destruct (process_chain_events_pres ls (st w1) w1 eq_refl) as [_ Hs].
    rewrite H in Hs. simpl in Hs. set_solver. }
  intros H. specialize (Hf H). split; [exact Hf|].
  intros l Hl. apply process_log_seen_noop.
  rewrite Forall_forall in Hf. apply Hf. exact Hl.
Qed.

(** ** Instances of the further properties on concrete inputs *)

Lemma fund_empty_account_witness :
  backend_nonce (st (res_world (handle_backend_event (Fund 171 3%nat)
    (world0 (initial_state 5) [RBalance (ROk 0); RSend (ROk 12); RReceipt (ROk None);
                               RReceipt (ROk (Some true))])))) = 6 /\
  trace (res_world (handle_backend_event (Fund 171 3%nat)
    (world0 (initial_state 5) [RBalance (ROk 0); RSend (ROk 12); RReceipt (ROk None);
                               RReceipt (ROk (Some true))]))) =
  [EvGetBalance 171 (ROk 0);
   EvSendTx (mkTx (CallTransfer 171 FUNDING_AMOUNT) 5 25000 GAS_PRICE None) (ROk 12);
   EvGetReceipt 12 (ROk None); EvSleep;
   EvGetReceipt 12 (ROk (Some true)); EvClientSend 3%nat (Funded 171 FUNDING_AMOUNT)].
Proof.
  assert (Hn : 5 + 1 < U64_LIMIT) by (unfold U64_LIMIT; lia).
  rewrite (proj1 (fund_empty_account 171 3%nat 12 1%nat []
                    (world0 (initial_state 5) [RBalance (ROk 0); RSend (ROk 12);
                                               RReceipt (ROk None);
                                               RReceipt (ROk (Some true))]) Hn)
             true eq_refl).
  split; reflexivity.
Defined.

Lemma fund_send_error_consumes_nonce_witness :
  backend_nonce (st (res_world (handle_backend_event (Fund 171 3%nat)
    (world0 (initial_state 5) [RBalance (ROk 0); RSend (RErr "nonce too low")])))) = 6.
Proof.
  assert (Hn : 5 + 1 < U64_LIMIT) by (unfold U64_LIMIT; lia).
  rewrite (fund_send_error_consumes_nonce 171 3%nat "nonce too low" []
             (world0 (initial_state 5) [RBalance (ROk 0); RSend (RErr "nonce too low")])
             eq_refl Hn).
  reflexivity.
Defined.

Lemma tick_command_outcomes_witness :
  backend_nonce (st (res_world (handle_backend_event Tick
    (world0 (initial_state 5) [RSend (RErr "nonce too low"); RTxCount (ROk 9)])))) = 9.
Proof.
  assert (Hn : 5 + 21 < U64_LIMIT) by (unfold U64_LIMIT; lia).
  rewrite (proj2 (proj2 (proj2 (tick_command_outcomes
             (world0 (initial_state 5) [RSend (RErr "nonce too low"); RTxCount (ROk 9)])
             [] Hn))) "nonce too low" (ROk 9) [] eq_refl eq_refl eq_refl).
  reflexivity.
Defined.

Lemma fund_player_outcomes_witness :
  trace (res_world (fund_player 2
    (world0 two_players [RBalance (ROk 100); RSend (ROk 12); RReceipt (ROk None);
                         RReceipt (ROk (Some true))]))) =
  [EvGetBalance 2 (ROk 100); EvSendTx (funding_tx 2 100 5) (ROk 12);
   EvGetReceipt 12 (ROk None); EvSleep;
   EvGetReceipt 12 (ROk (Some true)); EvBroadcast (Funded 2 FUNDING_AMOUNT)].
Proof.
  assert (Hb : 100 < MIN_BALANCE) by (unfold MIN_BALANCE; lia).
  assert (Hn : 5 + 1 < U64_LIMIT) by (unfold U64_LIMIT; lia).
  rewrite (proj2 (fund_player_outcomes 2 100
             (world0 two_players [RBalance (ROk 100); RSend (ROk 12); RReceipt (ROk None);
                                  RReceipt (ROk (Some true))])) 12 1%nat true [] eq_refl Hb Hn).
  reflexivity.
Defined.

Lemma restart_after_reset_witness :
  handle_restart_game restart_slow_world =
    Done tt (res_world (handle_restart_game restart_slow_world)) /\
  backend_nonce (st (res_world (handle_restart_game restart_slow_world))) = 7.
Proof.
  assert (E1 : restart_prefix restart_slow_world =
               Done 11 (res_world (restart_prefix restart_slow_world)))
    by (vm_compute; reflexivity).
  assert (E2 : poll_receipt 11 (res_world (restart_prefix restart_slow_world)) =
               Done true (res_world (poll_receipt 11
                                       (res_world (restart_prefix restart_slow_world)))))
    by (vm_compute; reflexivity).
  assert (Hs : script (res_world (poll_receipt 11 (res_world (restart_prefix restart_slow_world))))
               = RSend (ROk 12) :: repeat (RReceipt (ROk None)) 2 ++
                 RReceipt (ROk (Some true)) :: [])
    by (vm_compute; reflexivity).
  assert (Hn : backend_nonce (st (res_world (poll_receipt 11
                 (res_world (restart_prefix restart_slow_world))))) + 1 < U64_LIMIT)
    by (vm_compute; reflexivity).
  rewrite (proj1 (restart_after_reset _ _ _ 11 12 2%nat [] E1 E2 Hn) true Hs).
  split; [reflexivity | vm_compute; reflexivity].
Defined.


Lemma price_log_projection_witness :
  current_price (st (res_world (process_log price_log (world0 (initial_state 5) [])))) = 55.
Proof.
  assert (Hk : log_key price_log ∉ seen_logs (st (world0 (initial_state 5) [])))
    by (cbn; set_solver).
  rewrite (price_log_projection price_log 50 55 100 (world0 (initial_state 5) [])
             Hk eq_refl eq_refl eq_refl).
  reflexivity.
Defined.

Lemma price_log_overflow_panics_witness :
  match process_log (mkLog (Some 5) (Some 0) [PriceUpdate_SIG] [50; 2 ^ 64; 100])
          (world0 (initial_state 5) []) with
  | Panic w => current_price (st w) = 50
  | _ => False
  end.
Proof.
  assert (Hk : log_key (mkLog (Some 5) (Some 0) [PriceUpdate_SIG] [50; 2 ^ 64; 100])
               ∉ seen_logs (st (world0 (initial_state 5) []))) by (cbn; set_solver).
  assert (Hb : U64_LIMIT <= 2 ^ 64) by (unfold U64_LIMIT; lia).
  rewrite (price_log_overflow_panics _ 50 (2 ^ 64) 100 (world0 (initial_state 5) [])
             Hk eq_refl eq_refl Hb).
  reflexivity.
Defined.

Lemma unprojected_log_consumes_key_witness :
  balances (st (res_world (process_chain_events
    [mkLog (Some 77) (Some 1) [NewUser_SIG; 171] []; bought_log]
    (world0 (initial_state 5) [])))) !! 171 = None.
Proof.
  assert (Hk : log_key (mkLog (Some 77) (Some 1) [NewUser_SIG; 171] [])
               ∉ seen_logs (st (world0 (initial_state 5) []))) by (cbn; set_solver).
  assert (Hl : topic0 (mkLog (Some 77) (Some 1) [NewUser_SIG; 171] []) = None \/
    (exists t, topic0 (mkLog (Some 77) (Some 1) [NewUser_SIG; 171] []) = Some t /\
               t <> PriceUpdate_SIG /\ t <> Bought_SIG /\ t <> Sold_SIG) \/
    (topic0 (mkLog (Some 77) (Some 1) [NewUser_SIG; 171] []) = Some PriceUpdate_SIG /\
     decode_price_update (mkLog (Some 77) (Some 1) [NewUser_SIG; 171] []) = None) \/
    ((topic0 (mkLog (Some 77) (Some 1) [NewUser_SIG; 171] []) = Some Bought_SIG \/
      topic0 (mkLog (Some 77) (Some 1) [NewUser_SIG; 171] []) = Some Sold_SIG) /\
     decode_trade (mkLog (Some 77) (Some 1) [NewUser_SIG; 171] []) = None)).
  { right; left. exists NewUser_SIG.
    unfold NewUser_SIG, PriceUpdate_SIG, Bought_SIG, Sold_SIG. split; [reflexivity | lia]. }
  rewrite (unprojected_log_consumes_key _ [bought_log] (world0 (initial_state 5) []) Hk Hl).
  vm_compute. reflexivity.
Defined.

Lemma set_name_registers_witness :
  names (st (res_world (handle_client_message 3%nat (SetName "bob" addr_171)
                          (world0 (initial_state 5) [])))) !! 171 = Some "bob".
Proof.
  rewrite (proj1 (set_name_registers 3%nat "bob" addr_171 171
                    (world0 (initial_state 5) []) eq_refl)).
  reflexivity.
Defined.

Lemma bad_address_ignored_witness :
  handle_client_message 3%nat (GetNonce "0xzz") (world0 (initial_state 5) [RTxCount (ROk 1)]) =
  Done tt (world0 (initial_state 5) [RTxCount (ROk 1)]).
Proof.
  exact (proj2 (bad_address_ignored 3%nat "bob" "0xzz"
                  (world0 (initial_state 5) [RTxCount (ROk 1)]) eq_refl)).
Defined.

Lemma get_nonce_query_error_witness :
  trace (res_world (handle_client_message 3%nat (GetNonce addr_171)
                      (world0 (initial_state 5) [RTxCount (RErr "timeout")]))) =
  [EvGetTxCount 171 (RErr "timeout");
   EvClientSend 3%nat (TxError "Failed to get nonce: timeout")].
Proof.
  rewrite (get_nonce_query_error 3%nat addr_171 171 "timeout" []
             (world0 (initial_state 5) [RTxCount (RErr "timeout")]) eq_refl eq_refl).
  reflexivity.
Defined.

Lemma raw_tx_outcomes_witness :
  handle_client_message 3%nat (RawTx split_utf8_tx) (world0 (initial_state 5) []) =
  Panic (world0 (initial_state 5) []) /\
  handle_client_message 3%nat (RawTx "0xzz12") (world0 (initial_state 5) []) =
  Done tt (record (EvClientSend 3%nat
                     (TxError "Failed to parse transaction: invalid character 'z' at position 0"))
             (world0 (initial_state 5) [])) /\
  trace (res_world (handle_client_message 3%nat (RawTx "0xab")
                      (world0 (initial_state 5) [RSend (ROk 99)]))) =
  [EvSendRaw "0xab" (ROk 99); EvClientSend 3%nat (TxSubmitted 99)].
Proof.
  split; [|split].
  - exact (proj1 (proj2 (raw_tx_outcomes 3%nat split_utf8_tx (world0 (initial_state 5) [])))
             eq_refl).
  - exact (proj1 (proj2 (proj2 (raw_tx_outcomes 3%nat "0xzz12" (world0 (initial_state 5) []))))
             _ eq_refl eq_refl).
  - rewrite (proj2 (proj2 (proj2 (raw_tx_outcomes 3%nat "0xab"
                                    (world0 (initial_state 5) [RSend (ROk 99)]))))
               tt (ROk 99) [] eq_refl eq_refl eq_refl).
    reflexivity.
Defined.

Lemma initial_view_snapshot_witness :
  NameSet 171 "bob" ∈
    initial_view window_status_axum sample_gas 9 (set_name 171 "bob" (initial_state 5)) /\
  Position 171 900 4 0 ∈
    initial_view window_status_ws sample_gas 9
      (set_position 171 900 4 (initial_state 5)).
Proof.
  split.
  - apply (proj1 (initial_view_snapshot window_status_axum sample_gas 9
                    (set_name 171 "bob" (initial_state 5)) (or_intror eq_refl)) 171 "bob").
    reflexivity.
  - apply (proj2 (initial_view_snapshot window_status_ws sample_gas 9
                    (set_position 171 900 4 (initial_state 5)) (or_introl eq_refl))
             171 900 4 0).
    split; [reflexivity | split; reflexivity].
Defined.

Lemma session_messages_keep_state_witness :
  st (res_world (handle_client_message 3%nat (GetNonce addr_171)
                   (world0 (initial_state 5) [RTxCount (ROk 4)]))) = initial_state 5.
Proof.
  assert (Hm : forall name address, GetNonce addr_171 <> SetName name address)
    by discriminate.
  exact (session_messages_keep_state 3%nat (GetNonce addr_171)
           (world0 (initial_state 5) [RTxCount (ROk 4)]) Hm).
Defined.

Lemma fund_already_funded_position_witness :
  trace (res_world (handle_backend_event (Fund 171 3%nat)
    (world0 (initial_state 5) [RBalance (ROk 100); RView (ROk 4); RView (ROk 900)]))) =
  [EvGetBalance 171 (ROk 100); EvView GetHoldings 171 (ROk 4);
   EvView GetBalance 171 (ROk 900); EvClientSend 3%nat (Funded 171 100);
   EvBroadcast (Position 171 900 4 0)].
Proof.
  assert (Hb : 0 < 100 < U64_LIMIT) by (unfold U64_LIMIT; lia).
  assert (Hh : 4 < U64_LIMIT) by (unfold U64_LIMIT; lia).
  assert (Hc : 900 < U64_LIMIT) by (unfold U64_LIMIT; lia).
  rewrite (fund_already_funded_position 171 3%nat 100 4 900 []
             (world0 (initial_state 5) [RBalance (ROk 100); RView (ROk 4); RView (ROk 900)])
             eq_refl Hb Hh Hc).
  reflexivity.
Defined.

Lemma stream_keys_seen_witness :
  process_log price_log
    (res_world (process_chain_events [price_log; bought_log] (world0 (initial_state 5) []))) =
  Done tt
    (res_world (process_chain_events [price_log; bought_log] (world0 (initial_state 5) []))).
Proof.
  assert (E : process_chain_events [price_log; bought_log] (world0 (initial_state 5) []) =
              Done tt (res_world (process_chain_events [price_log; bought_log]
                                    (world0 (initial_state 5) []))))
    by (vm_compute; reflexivity).
  apply (proj2 (stream_keys_seen _ _ _ E)). left.
Defined.
